(** * Anilist "Hide Unwanted Activity" userscript (v1.8b): condition
      evaluation and pagination control.

    A shallow embedding of [ActivityHandler], [UIHandler], [MainApp] and
    [ConfigValidator].  JavaScript exceptions are an explicit [Throw]
    result; the page (DOM nodes, listeners, timers) is explicit state. *)

From Stdlib Require Import List String Ascii Bool ZArith Lia Arith.
Import ListNotations.
Open Scope string_scope.

Set Warnings "-register-all".

(** ** Completions: a JavaScript call either returns or throws *)

Inductive error : Type := TypeError.

Inductive completion (A : Type) : Type :=
| Normal (a : A)
| Throw (e : error).
Arguments Normal {A} a.
Arguments Throw {A} e.

Definition bind {A B} (c : completion A) (k : A -> completion B) : completion B :=
  match c with
  | Normal a => k a
  | Throw e => Throw e
  end.

Notation "x <- c ;; k" := (bind c (fun x => k))
  (at level 61, c at next level, right associativity).

(** [Array.prototype.some]: left to right, stops at the first truthy
    answer, and an exception of the callback escapes. *)
Fixpoint some {A} (f : A -> completion bool) (l : list A) : completion bool :=
  match l with
  | [] => Normal false
  | x :: t => b <- f x ;; if b then Normal true else some f t
  end.

(** [Array.prototype.every]: stops at the first falsy answer. *)
Fixpoint every {A} (f : A -> completion bool) (l : list A) : completion bool :=
  match l with
  | [] => Normal true
  | x :: t => b <- f x ;; if b then every f t else Normal false
  end.

(** [Array.prototype.map] with a callback that may throw. *)
Fixpoint mapM {A B} (f : A -> completion B) (l : list A) : completion (list B) :=
  match l with
  | [] => Normal []
  | x :: t => y <- f x ;; ys <- mapM f t ;; Normal (y :: ys)
  end.

(** ** Configuration values

    The two array-valued settings hold strings and (nested) arrays;
    every other kind of element is rejected by the validator's [typeof]
    tests. *)

Inductive value : Type :=
| Str (s : string)
| Arr (l : list value).

Definition isArray (v : value) : bool :=
  match v with Arr _ => true | Str _ => false end.

Definition isString (v : value) : bool :=
  match v with Str _ => true | Arr _ => false end.

(** [Array.prototype.flat()] with its default depth 1. *)
Fixpoint flat (l : list value) : list value :=
  match l with
  | [] => []
  | Arr inner :: t => inner ++ flat t
  | Str s :: t => Str s :: flat t
  end.

(** [Array.prototype.includes] for a string argument: arrays are objects
    and never equal to a string. *)
Definition includes_name (l : list value) (name : string) : bool :=
  existsb (fun v => match v with Str s => String.eqb s name | Arr _ => false end) l.

(** [Array.prototype.includes] on an array of booleans. *)
Definition includes_bool (l : list bool) (b : bool) : bool :=
  existsb (Bool.eqb b) l.

(** ** Strings *)

(** [String.prototype.includes] with a string argument. *)
Fixpoint includes (text s : string) : bool :=
  String.prefix s text ||
  match text with
  | EmptyString => false
  | String _ rest => includes rest s
  end.

(** [String.prototype.toLowerCase].  The function is taken as given: the
    development holds for every lower-casing that maps the empty string
    to itself, the one fact about it that a proof uses. *)
Class LowerCasing : Type := {
  toLowerCase : string -> string;
  toLowerCase_empty : toLowerCase "" = ""
}.

(** Lower-casing of ASCII text, where only the letters A to Z change: the
    instance at which the examples are evaluated, all of whose texts and
    patterns are ASCII. *)
Definition lower_ascii (c : ascii) : ascii :=
  let n := nat_of_ascii c in
  if (65 <=? n)%nat && (n <=? 90)%nat then ascii_of_nat (n + 32) else c.

Fixpoint toLowerCaseAscii (s : string) : string :=
  match s with
  | EmptyString => EmptyString
  | String c rest => String (lower_ascii c) (toLowerCaseAscii rest)
  end.

Definition asciiLowerCasing : LowerCasing :=
  {| toLowerCase := toLowerCaseAscii; toLowerCase_empty := eq_refl |}.

(** [ToString] of a value: an array is its elements joined by commas. *)
Fixpoint toString (v : value) : string :=
  match v with
  | Str s => s
  | Arr l =>
      (fix join (l : list value) : string :=
         match l with
         | [] => ""
         | x :: t =>
             match t with
             | [] => toString x
             | _ :: _ => toString x ++ "," ++ join t
             end
         end) l
  end.

(** ** Entries

    The queries the handler makes on an activity node. *)

Record Node : Type := mkNode {
  textContent : string;
  classList : list string;
  repliesCount : bool;   (* div.action.replies holds a span.count *)
  likesCount : bool;     (* div.action.likes holds a span.count *)
  img : bool;            (* querySelector('img') finds an element *)
  video : bool;          (* querySelector('video') finds an element *)
  youTube : bool         (* querySelector('span.youtube') finds an element *)
}.

Definition classList_contains (node : Node) (c : string) : bool :=
  existsb (String.eqb c) (classList node).

(** ** The configuration object *)

Record Remove : Type := mkRemove {
  uncommented : bool;
  unliked : bool;
  text : bool;
  images : bool;
  videos : bool;
  containsStrings : list value
}.

Record Options : Type := mkOptions {
  targetLoadCount : Z;
  caseSensitive : bool;
  reversedConditions : bool;
  linkedConditions : list value
}.

Record RunOn : Type := mkRunOn {
  home : bool;
  social : bool;
  profile : bool
}.

Record Config : Type := mkConfig {
  remove : Remove;
  options : Options;
  runOn : RunOn
}.

(** [remove[name]] is a boolean, an array, or [undefined]. *)
Inductive removeOption : Type :=
| OBool (b : bool)
| OArr (l : list value)
| OUndefined.

Definition remove_get (r : Remove) (name : string) : removeOption :=
  if String.eqb name "uncommented" then OBool (uncommented r)
  else if String.eqb name "unliked" then OBool (unliked r)
  else if String.eqb name "text" then OBool (text r)
  else if String.eqb name "images" then OBool (images r)
  else if String.eqb name "videos" then OBool (videos r)
  else if String.eqb name "containsStrings" then OArr (containsStrings r)
  else OUndefined.

(** ** ActivityHandler *)

Module ActivityHandler.

Definition shouldRemoveImage (node : Node) : bool := img node.

Definition shouldRemoveVideo (node : Node) : bool := video node || youTube node.

Definition shouldRemoveUncommented (node : Node) : bool := negb (repliesCount node).

Definition shouldRemoveUnliked (node : Node) : bool := negb (likesCount node).

Definition shouldRemoveText (node : Node) : bool :=
  (classList_contains node "activity-text" || classList_contains node "activity-message")
  && negb (shouldRemoveImage node || shouldRemoveVideo node).

Section WithConfig.

Context {L : LowerCasing}.
Variable config : Config.

(** [containsString(nodeText, strings)]: [toLowerCase] does not exist on
    an array; [includes] converts an array argument to a string. *)
Definition containsString (nodeText : string) (strings : value) : completion bool :=
  if negb (caseSensitive (options config)) then
    match strings with
    | Str s => Normal (includes (toLowerCase nodeText) (toLowerCase s))
    | Arr _ => Throw TypeError
    end
  else Normal (includes nodeText (toString strings)).

Definition checkStrings (node : Node) (strings : value) : completion bool :=
  match strings with
  | Arr l => every (containsString (textContent node)) l
  | Str _ => containsString (textContent node) strings
  end.

Definition shouldRemoveStrings (node : Node) (reversed : bool) : completion bool :=
  let cs := containsStrings (remove config) in
  if (List.length (flat cs) =? 0)%nat then Normal false
  else
    b <- some (checkStrings node) cs ;;
    Normal (if reversed then negb b else b).

Definition predicate : Type := Node -> bool -> completion bool.

Definition primitive (raw : Node -> bool) : predicate :=
  fun node reverse => Normal (if reverse then negb (raw node) else raw node).

Definition conditionsMap : list (string * predicate) :=
  [ ("uncommented", primitive shouldRemoveUncommented);
    ("unliked", primitive shouldRemoveUnliked);
    ("text", primitive shouldRemoveText);
    ("images", primitive shouldRemoveImage);
    ("videos", primitive shouldRemoveVideo);
    ("containsStrings", shouldRemoveStrings) ].

(** [Map.prototype.get]: an array key is never found. *)
Definition conditionsMap_get (key : value) : option predicate :=
  match key with
  | Str name =>
      match find (fun e => String.eqb (fst e) name) conditionsMap with
      | Some e => Some (snd e)
      | None => None
      end
  | Arr _ => None
  end.

(** [this.conditionsMap.get(condition)(node, reversedConditions)]:
    calling [undefined] throws. *)
Definition callCondition (node : Node) (reversed : bool) (condition : value)
  : completion bool :=
  match conditionsMap_get condition with
  | Some p => p node reversed
  | None => Throw TypeError
  end.

(** [checkConditions]: a string has no [some] or [every] method. *)
Definition checkConditions (node : Node) (conditionList : value) (reversed : bool)
  : completion bool :=
  match conditionList with
  | Arr l =>
      if reversed then some (callCondition node reversed) l
      else every (callCondition node reversed) l
  | Str _ => Throw TypeError
  end.

Definition shouldRemoveByLinkedConditions (node : Node) : completion bool :=
  let linked := linkedConditions (options config) in
  let reversed := reversedConditions (options config) in
  match linked with
  | [] => Normal false
  | first :: _ =>
      let conditions := if isArray first then linked else [Arr linked] in
      some (fun condition => checkConditions node condition reversed) conditions
  end.

Definition skipChecking (condition : string) : bool :=
  includes_name (flat (linkedConditions (options config))) condition.

(** [conditionOption === true || (Array.isArray(conditionOption) &&
    conditionOption.length > 0)] *)
Definition conditionEnabled (name : string) : bool :=
  match remove_get (remove config) name with
  | OBool b => b
  | OArr l => (0 <? List.length l)%nat
  | OUndefined => false
  end.

Definition shouldRemoveNode (node : Node) : completion bool :=
  let reversed := reversedConditions (options config) in
  linked <- shouldRemoveByLinkedConditions node ;;
  if linked then Normal true
  else if reversed then
    toBeRemoved <-
      mapM (fun e => snd e node reversed)
           (filter (fun e => conditionEnabled (fst e) && negb (skipChecking (fst e)))
                   conditionsMap) ;;
    Normal (includes_bool toBeRemoved true && negb (includes_bool toBeRemoved false))
  else
    some (fun e =>
            if conditionEnabled (fst e) && negb (skipChecking (fst e))
            then snd e node reversed
            else Normal false)
         conditionsMap.

End WithConfig.

End ActivityHandler.

(** ** ConfigValidator

    The record types above stand for the [typeof] and [Array.isArray]
    tests of [validateBooleans] and [validateArrays]: a [Config] cannot
    fail them.  The remaining tests depend on the values. *)

Module ConfigValidator.

Definition allowedConditions : list string :=
  ["uncommented"; "unliked"; "text"; "images"; "videos"; "containsStrings"].

Definition allowedConditions_includes (s : string) : bool :=
  existsb (String.eqb s) allowedConditions.

Definition validatePositiveNonZeroInteger (key : string) (value : Z) : list string :=
  if (value <=? 0)%Z then [key ++ " should be a positive non-zero integer"] else [].

(** The loop returns at the first offending element, after one error. *)
Fixpoint linkedConditions_ok (flattened : list value) : bool :=
  match flattened with
  | [] => true
  | Str s :: t => allowedConditions_includes s && linkedConditions_ok t
  | Arr _ :: _ => false
  end.

Definition validateLinkedConditions (configKey : string) (linked : list value)
  : list string :=
  if linkedConditions_ok (flat linked) then []
  else [configKey ++ " should only contain the following strings: "
        ++ String.concat ", " allowedConditions].

Fixpoint validateArrayContents_value (element : value) : bool :=
  match element with
  | Str _ => true
  | Arr inner => forallb validateArrayContents_value inner
  end.

Definition validateArrayContents (arr : list value) : bool :=
  forallb validateArrayContents_value arr.

Definition validateStringArrays (key : string) (arr : list value) : list string :=
  if validateArrayContents arr then [] else [key ++ " should only contain strings"].

Definition errors (config : Config) : list string :=
  validatePositiveNonZeroInteger "options.targetLoadCount"
    (targetLoadCount (options config))
  ++ validateLinkedConditions "options.linkedConditions"
       (linkedConditions (options config))
  ++ validateStringArrays "remove.containsStrings"
       (containsStrings (remove config)).

(** [validate()] throws when any error was collected; [validated] is its
    normal return. *)
Definition validated (config : Config) : bool :=
  match errors config with
  | [] => true
  | _ :: _ => false
  end.

End ConfigValidator.

(** ** The page and the two handlers' state *)

Definition button : Type := nat.

Record World : Type := mkWorld {
  currentLoadCount : Z;        (* ActivityHandler.currentLoadCount *)
  userPressed : bool;          (* UIHandler.userPressed *)
  cancel : option bool;        (* UIHandler.cancel: created? displayed? *)
  loadMore : option button;    (* UIHandler.loadMore *)
  listeners : list button;     (* click listeners added by setLoadMore *)
  intervals : nat;             (* live timers of simulateDomEvents *)
  scrolls : nat;               (* scroll events dispatched on window *)
  clicks : list button;        (* programmatic click() calls, oldest first *)
  removed : list Node          (* entries detached by node.remove() *)
}.

Definition set_currentLoadCount (n : Z) (w : World) : World :=
  mkWorld n (userPressed w) (cancel w) (loadMore w) (listeners w)
          (intervals w) (scrolls w) (clicks w) (removed w).

Definition set_userPressed (b : bool) (w : World) : World :=
  mkWorld (currentLoadCount w) b (cancel w) (loadMore w) (listeners w)
          (intervals w) (scrolls w) (clicks w) (removed w).

Definition set_cancel (c : option bool) (w : World) : World :=
  mkWorld (currentLoadCount w) (userPressed w) c (loadMore w) (listeners w)
          (intervals w) (scrolls w) (clicks w) (removed w).

Definition set_loadMore (l : option button) (w : World) : World :=
  mkWorld (currentLoadCount w) (userPressed w) (cancel w) l (listeners w)
          (intervals w) (scrolls w) (clicks w) (removed w).

Definition set_listeners (l : list button) (w : World) : World :=
  mkWorld (currentLoadCount w) (userPressed w) (cancel w) (loadMore w) l
          (intervals w) (scrolls w) (clicks w) (removed w).

Definition set_intervals (n : nat) (w : World) : World :=
  mkWorld (currentLoadCount w) (userPressed w) (cancel w) (loadMore w)
          (listeners w) n (scrolls w) (clicks w) (removed w).

Definition set_scrolls (n : nat) (w : World) : World :=
  mkWorld (currentLoadCount w) (userPressed w) (cancel w) (loadMore w)
          (listeners w) (intervals w) n (clicks w) (removed w).

Definition set_clicks (l : list button) (w : World) : World :=
  mkWorld (currentLoadCount w) (userPressed w) (cancel w) (loadMore w)
          (listeners w) (intervals w) (scrolls w) l (removed w).

Definition set_removed (l : list Node) (w : World) : World :=
  mkWorld (currentLoadCount w) (userPressed w) (cancel w) (loadMore w)
          (listeners w) (intervals w) (scrolls w) (clicks w) l.

(** [new ActivityHandler(config)] and [new UIHandler()] on a fresh page. *)
Definition initialWorld : World :=
  mkWorld 0 true None None [] 0 0 [] [].

Fixpoint iterate {A} (n : nat) (f : A -> A) (a : A) : A :=
  match n with
  | O => a
  | S k => iterate k f (f a)
  end.

Module UIHandler.

Definition createCancel (w : World) : World := set_cancel (Some true) w.

Definition showCancel (w : World) : World :=
  match cancel w with
  | None => createCancel w
  | Some _ => set_cancel (Some true) w
  end.

Definition hideCancel (w : World) : World :=
  match cancel w with
  | Some _ => set_cancel (Some false) w
  | None => w
  end.

Definition simulateDomEvents (w : World) : World :=
  set_intervals (S (intervals w)) w.

(** The listener that [setLoadMore] adds to a control. *)
Definition clickListener (w : World) : World :=
  showCancel (simulateDomEvents (set_userPressed true w)).

(** A click event on control [b], from the user or from [click()]: every
    listener added to [b] runs. *)
Definition dispatchClick (b : button) (w : World) : World :=
  iterate (count_occ Nat.eq_dec (listeners w) b) clickListener w.

Definition setLoadMore (b : button) (w : World) : World :=
  set_listeners (b :: listeners w) (set_loadMore (Some b) w).

Definition clickLoadMore (w : World) : World :=
  match loadMore w with
  | Some b =>
      set_loadMore None (dispatchClick b (set_clicks (clicks w ++ [b]) w))
  | None => w
  end.

Definition resetState (w : World) : World :=
  hideCancel (set_userPressed false w).

(** [onclick] of the cancel button; without a button there is no click. *)
Definition cancelClick (w : World) : World :=
  match cancel w with
  | Some _ => set_cancel (Some false) (set_userPressed false w)
  | None => w
  end.

(** One firing of one interval timer. *)
Definition intervalTick (w : World) : World :=
  match intervals w with
  | O => w
  | S k =>
      if userPressed w then set_scrolls (S (scrolls w)) w
      else set_intervals k w
  end.

End UIHandler.

(** ** MainApp *)

Inductive addedNode : Type :=
| ActivityNode (node : Node)     (* matches div.activity-entry *)
| ButtonNode (b : button)        (* matches div.load-more *)
| OtherNode.

Module MainApp.

Section WithConfig.

Context {L : LowerCasing}.
Variable config : Config.

Definition removeEntry (node : Node) (w : World) : completion World :=
  r <- ActivityHandler.shouldRemoveNode config node ;;
  Normal (if r then set_removed (removed w ++ [node]) w
          else set_currentLoadCount (currentLoadCount w + 1) w).

Definition resetState (w : World) : World := set_currentLoadCount 0 w.

Definition handleAddedNode (n : addedNode) (w : World) : completion World :=
  match n with
  | ActivityNode node => removeEntry node w
  | ButtonNode b => Normal (UIHandler.setLoadMore b w)
  | OtherNode => Normal w
  end.

Definition loadMoreOrReset (w : World) : World :=
  if (currentLoadCount w <? targetLoadCount (options config))%Z && userPressed w
  then UIHandler.clickLoadMore w
  else UIHandler.resetState (resetState w).

(** The loops over the added nodes: an exception leaves the state as it
    is at that moment and skips the rest. *)
Fixpoint handleAddedNodes (nodes : list addedNode) (w : World)
  : World * completion unit :=
  match nodes with
  | [] => (w, Normal tt)
  | n :: rest =>
      match handleAddedNode n w with
      | Normal w' => handleAddedNodes rest w'
      | Throw e => (w, Throw e)
      end
  end.

(** [allowedUrl] is the answer of [isAllowedUrl] for the location of the
    page at that moment. *)
Definition observeMutations (allowedUrl : bool) (mutations : list (list addedNode))
  (w : World) : World * completion unit :=
  if allowedUrl then
    match handleAddedNodes (List.concat mutations) w with
    | (w', Normal _) => (loadMoreOrReset w', Normal tt)
    | (w', Throw e) => (w', Throw e)
    end
  else (w, Normal tt).

(** What can happen on the page. *)
Inductive event : Type :=
| Mutations (allowedUrl : bool) (mutations : list (list addedNode))
| UserClick (b : button)
| CancelClick
| Tick.

Definition step (w : World) (e : event) : World :=
  match e with
  | Mutations allowedUrl mutations => fst (observeMutations allowedUrl mutations w)
  | UserClick b => UIHandler.dispatchClick b w
  | CancelClick => UIHandler.cancelClick w
  | Tick => UIHandler.intervalTick w
  end.

Definition run (events : list event) (w : World) : World :=
  fold_left step events w.

End WithConfig.

End MainApp.


(** * The URL gate of [MainApp]

    [isAllowedUrl] builds a regular expression from each enabled pattern
    and tests the location of the page against it.  The patterns only use
    literal characters, [.] and [.*]; the matcher below covers that
    fragment and refuses every other metacharacter.  A location is a
    serialised URL, hence ASCII. *)

Module RegExp.

Inductive atom : Type :=
| Lit (c : ascii)
| Dot.

Inductive item : Type :=
| One (a : atom)
| Star (a : atom).

(** [.] does not match a line terminator. *)
Definition lineTerminator (c : ascii) : bool :=
  (nat_of_ascii c =? 10)%nat || (nat_of_ascii c =? 13)%nat.

Definition matchAtom (a : atom) (c : ascii) : bool :=
  match a with
  | Lit d => Ascii.eqb d c
  | Dot => negb (lineTerminator c)
  end.

Definition isMeta (c : ascii) : bool :=
  existsb (Ascii.eqb c) (list_ascii_of_string "\^$.|?*+()[]{}").

Definition atomOf (c : ascii) : option atom :=
  if Ascii.eqb c "."%char then Some Dot
  else if isMeta c then None
  else Some (Lit c).

(** [new RegExp(source)], for sources of the fragment. *)
Fixpoint compile (source : string) : option (list item) :=
  match source with
  | EmptyString => Some []
  | String c rest =>
      match atomOf c with
      | None => None
      | Some a =>
          match rest with
          | String "*"%char rest' => option_map (cons (Star a)) (compile rest')
          | _ => option_map (cons (One a)) (compile rest)
          end
      end
  end.

(** A match of the whole expression that starts at the head of [s]. *)
Fixpoint matchHere (re : list item) (s : string) {struct re} : bool :=
  match re with
  | [] => true
  | One a :: r =>
      match s with
      | String c s' => matchAtom a c && matchHere r s'
      | EmptyString => false
      end
  | Star a :: r =>
      (fix star (s : string) : bool :=
         matchHere r s
         || match s with
            | String c s' => matchAtom a c && star s'
            | EmptyString => false
            end) s
  end.

(** [regex.test(s)]: a match that starts anywhere. *)
Fixpoint test (re : list item) (s : string) : bool :=
  matchHere re s
  || match s with
     | String _ s' => test re s'
     | EmptyString => false
     end.

End RegExp.

(** The single-character items at the head of an expression, and the
    strings they match. *)
Fixpoint splitOnes (re : list RegExp.item) : list RegExp.atom * list RegExp.item :=
  match re with
  | RegExp.One a :: r => let (atoms, tail) := splitOnes r in (a :: atoms, tail)
  | _ => ([], re)
  end.

Fixpoint matchOnes (atoms : list RegExp.atom) (p : string) : bool :=
  match atoms, p with
  | [], EmptyString => true
  | a :: atoms', String c p' => RegExp.matchAtom a c && matchOnes atoms' p'
  | _, _ => false
  end.

(** [String.prototype.replace('*', '.*')]: the first star only. *)
Fixpoint replaceStar (s : string) : string :=
  match s with
  | EmptyString => EmptyString
  | String c rest =>
      if Ascii.eqb c "*"%char then String "."%char (String "*"%char rest)
      else String c (replaceStar rest)
  end.

Fixpoint noLineTerminator (s : string) : bool :=
  match s with
  | EmptyString => true
  | String c rest => negb (RegExp.lineTerminator c) && noLineTerminator rest
  end.

Module Location.

Definition URLS : list (string * string) :=
  [ ("home", "https://anilist.co/home");
    ("profile", "https://anilist.co/user/*/");
    ("social", "https://anilist.co/*/social") ].

(** [this.config.runOn[pattern]] *)
Definition runOn_get (r : RunOn) (pattern : string) : bool :=
  if String.eqb pattern "home" then home r
  else if String.eqb pattern "profile" then profile r
  else if String.eqb pattern "social" then social r
  else false.

Definition patternTest (urlPattern href : string) : bool :=
  match RegExp.compile (replaceStar urlPattern) with
  | Some re => RegExp.test re href
  | None => false
  end.

Definition isAllowedUrl (config : Config) (href : string) : bool :=
  existsb (fun entry => patternTest (snd entry) href)
          (filter (fun entry => runOn_get (runOn config) (fst entry)) URLS).

(** [observeMutations] with [isAllowedUrl] evaluated on the location. *)
Definition observeMutations {L : LowerCasing} (config : Config) (href : string)
  (mutations : list (list addedNode)) (w : World) : World * completion unit :=
  MainApp.observeMutations config (isAllowedUrl config href) mutations w.

End Location.

(** * Specification-side definitions *)

Import ActivityHandler.

Section Text.

(** Everything below holds for every lower-casing. *)
Context {L : LowerCasing}.

(** ** The string condition, in the words of the specification *)

(** The strings of a group; a bare string is a singleton group. *)
Definition stringsOf (l : list value) : list string :=
  flat_map (fun v => match v with Str s => [s] | Arr _ => [] end) l.

Definition groupOf (v : value) : list string :=
  match v with
  | Str s => [s]
  | Arr l => stringsOf l
  end.

Definition patternGroups (config : Config) : list (list string) :=
  map groupOf (containsStrings (remove config)).

(** A string occurs in the text, compared as [caseSensitive] says. *)
Definition occursIn (config : Config) (nodeText s : string) : bool :=
  if caseSensitive (options config) then includes nodeText s
  else includes (toLowerCase nodeText) (toLowerCase s).

Definition groupMatches (config : Config) (node : Node) (group : list string) : bool :=
  forallb (occursIn config (textContent node)) group.

(** Non-reversed: some group matches.  Reversed: no group matches. *)
Definition stringCondition_stated (config : Config) (node : Node) (reversed : bool)
  : bool :=
  let anyGroup := existsb (groupMatches config node) (patternGroups config) in
  if reversed then negb anyGroup else anyGroup.

(** The same, behind the guard on an empty pattern set. *)
Definition patternSetEmpty (config : Config) : bool :=
  (List.length (flat (containsStrings (remove config))) =? 0)%nat.

Definition stringCondition_guarded (config : Config) (node : Node) (reversed : bool)
  : bool :=
  negb (patternSetEmpty config) && stringCondition_stated config node reversed.

(** The pattern sets of the data model: strings and groups of strings. *)
Definition twoLevel (patterns : list value) : bool :=
  forallb (fun v => match v with Str _ => true | Arr l => forallb isString l end)
          patterns.


(** ** The decision, in the words of the specification *)

(** The closed set of condition identifiers, in evaluation order. *)
Definition conditionNames : list string :=
  ["uncommented"; "unliked"; "text"; "images"; "videos"; "containsStrings"].

(** The two shapes of [linkedConditions] that the data model describes:
    one unwrapped group of identifiers, or a sequence of groups. *)
Definition uniformLinked (linked : list value) : bool :=
  forallb isString linked || forallb isArray linked.

(** The linked groups: a single flat group when the configuration
    supplies an unwrapped sequence. *)
Definition linkedGroups (linked : list value) : list (list string) :=
  match linked with
  | [] => []
  | Str _ :: _ => [stringsOf linked]
  | Arr _ :: _ => map groupOf linked
  end.

(** A condition is claimed when some linked group has it as a member. *)
Definition claimed (config : Config) (name : string) : bool :=
  existsb (existsb (String.eqb name)) (linkedGroups (linkedConditions (options config))).

(** The conditions that take part in independent evaluation: enabled and
    not claimed. *)
Definition participating (config : Config) : list string :=
  filter (fun name => conditionEnabled config name && negb (claimed config name))
         conditionNames.

Definition isEmpty {A} (l : list A) : bool :=
  match l with [] => true | _ :: _ => false end.

Section Composition.

(** The value of the string condition is a parameter, so that the
    composition can be read with and without the empty-set guard. *)
Variable stringCondition : Config -> Node -> bool -> bool.

Definition reverseIf (reversed b : bool) : bool :=
  if reversed then negb b else b.

(** A primitive condition is its raw predicate, negated under reversal. *)
Definition conditionValue (config : Config) (node : Node) (reversed : bool)
  (name : string) : bool :=
  if String.eqb name "uncommented" then reverseIf reversed (shouldRemoveUncommented node)
  else if String.eqb name "unliked" then reverseIf reversed (shouldRemoveUnliked node)
  else if String.eqb name "text" then reverseIf reversed (shouldRemoveText node)
  else if String.eqb name "images" then reverseIf reversed (shouldRemoveImage node)
  else if String.eqb name "videos" then reverseIf reversed (shouldRemoveVideo node)
  else if String.eqb name "containsStrings" then stringCondition config node reversed
  else false.

(** A linked group matches when all its members hold, or, reversed, when
    any member holds. *)
Definition groupMatched (config : Config) (node : Node) (reversed : bool)
  (group : list string) : bool :=
  if reversed then existsb (conditionValue config node reversed) group
  else forallb (conditionValue config node reversed) group.

Definition removes (config : Config) (node : Node) : bool :=
  let reversed := reversedConditions (options config) in
  existsb (groupMatched config node reversed)
          (linkedGroups (linkedConditions (options config)))
  || (if reversed
      then negb (isEmpty (participating config))
           && forallb (conditionValue config node reversed) (participating config)
      else existsb (conditionValue config node reversed) (participating config)).

End Composition.

(** ** Fixtures *)

(** The configuration shipped with the script. *)
Definition defaultConfig : Config :=
  mkConfig (mkRemove true false false false false [])
           (mkOptions 2 false false [])
           (mkRunOn true true false).

Definition withRemove (r : Remove) (config : Config) : Config :=
  mkConfig r (options config) (runOn config).

Definition withOptions (o : Options) (config : Config) : Config :=
  mkConfig (remove config) o (runOn config).

Definition noRemove : Remove := mkRemove false false false false false [].

(** An entry with three comments and one like, plain text. *)
Definition commentedEntry : Node :=
  mkNode "Giveaway CLOSED now" ["activity-entry"; "activity-text"]
         true true false false false.

(** An entry without comments or likes that embeds a video. *)
Definition videoEntry : Node :=
  mkNode "watch this" ["activity-entry"; "activity-anime_list"]
         false false false true false.

(** An entry without comments that shows an image. *)
Definition imageEntry : Node :=
  mkNode "look" ["activity-entry"; "activity-text"] false true true false false.

(** [linkedConditions: ['uncommented', ['unliked']]]: a bare identifier
    followed by a nested sequence. *)
Definition mixedLinked : list value := [Str "uncommented"; Arr [Str "unliked"]].

Definition mixedConfig : Config :=
  mkConfig (mkRemove false false false false true [])
           (mkOptions 2 false false mixedLinked)
           (mkRunOn true true false).

(** [linkedConditions: [['containsStrings']]] with no pattern, reversed. *)
Definition emptyPatternLinkedConfig : Config :=
  mkConfig noRemove
           (mkOptions 2 false true [Arr [Str "containsStrings"]])
           (mkRunOn true true false).

(** [containsStrings: []], the default. *)
Definition noPatternConfig (reversed : bool) : Config :=
  mkConfig noRemove (mkOptions 2 false reversed []) (mkRunOn true true false).

(** [containsStrings: [[]]]: one group, without strings. *)
Definition emptyGroupPatternConfig : Config :=
  mkConfig (mkRemove false false false false false [Arr []])
           (mkOptions 2 false false []) (mkRunOn true true false).

(** [containsStrings: [['giveaway', 'closed'], 'spoiler']] *)
Definition giveawayConfig (reversed : bool) : Config :=
  mkConfig (mkRemove false false false false false
              [Arr [Str "giveaway"; Str "closed"]; Str "spoiler"])
           (mkOptions 2 false reversed []) (mkRunOn true true false).

(** [linkedConditions: ['text', []]]: an empty sequence after a bare
    identifier. *)
Definition bareThenEmptyConfig : Config :=
  mkConfig noRemove (mkOptions 2 false false [Str "text"; Arr []])
           (mkRunOn true true false).

(** [linkedConditions: [[]]] *)
Definition emptyGroupConfig (reversed : bool) : Config :=
  mkConfig noRemove (mkOptions 2 false reversed [Arr []]) (mkRunOn true true false).

(** ** Pagination: observations on the page *)

(** The number of programmatic clicks still owed to control [b]: one
    while it is the held reference. *)
Definition held (w : World) (b : button) : nat :=
  match loadMore w with
  | Some b' => if Nat.eqb b' b then 1 else 0
  | None => 0
  end.

Definition invoked (w : World) (b : button) : nat :=
  count_occ Nat.eq_dec (clicks w) b.

Definition registered (w : World) (b : button) : nat :=
  count_occ Nat.eq_dec (listeners w) b.

(** Every invocation, done or owed, is covered by a registration. *)
Definition singleUse (w : World) : Prop :=
  forall b, invoked w b + held w b <= registered w b.

(** The control that a batch leaves as the held reference: the last
    load-more control among the added nodes. *)
Fixpoint lastButtonFrom (held : option button) (nodes : list addedNode)
  : option button :=
  match nodes with
  | [] => held
  | ButtonNode b :: rest => lastButtonFrom (Some b) rest
  | _ :: rest => lastButtonFrom held rest
  end.

Definition isUserClick (e : MainApp.event) : bool :=
  match e with
  | MainApp.UserClick _ => true
  | _ => false
  end.

(** Idle, below the target, with control 7 held. *)
Definition idleWorld : World :=
  mkWorld 0 false (Some false) (Some 7) [7] 0 0 [] [].

(** Continuing, below the target, with control 7 held. *)
Definition continuingWorld : World :=
  mkWorld 1 true (Some true) (Some 7) [7] 1 0 [] [].

(** A first batch: one entry that survives the default configuration and
    the load-more control. *)
Definition firstBatch : list (list addedNode) :=
  [[ActivityNode commentedEntry; ButtonNode 7]].

(** [containsStrings: [[['a']]]]: three levels, accepted by
    [validateArrayContents]. *)
Definition deepPatternConfig : Config :=
  mkConfig (mkRemove false false false false false [Arr [Arr [Str "a"]]])
           (mkOptions 2 false false []) (mkRunOn true true false).

(** [linkedConditions: ['images', 'videos']], nothing else enabled. *)
Definition imageAndVideoConfig : Config :=
  mkConfig noRemove (mkOptions 2 false false [Str "images"; Str "videos"])
           (mkRunOn true true false).

(** [linkedConditions: [['unliked'], 'uncommented']]: a group followed by
    a bare identifier. *)
Definition groupThenBareConfig : Config :=
  mkConfig noRemove
           (mkOptions 2 false false [Arr [Str "unliked"]; Str "uncommented"])
           (mkRunOn true true false).

Definition reversedDefaultConfig : Config :=
  mkConfig (mkRemove true false false false false [])
           (mkOptions 2 false true []) (mkRunOn true true false).

(** An entry without comments, plain text. *)
Definition uncommentedEntry : Node :=
  mkNode "hello" ["activity-entry"; "activity-text"] false false false false false.

Definition scenarioBatch : list (list addedNode) :=
  [[ActivityNode uncommentedEntry; ActivityNode commentedEntry;
    ActivityNode uncommentedEntry]].

(** * Further definitions for the properties *)

Definition setReversed (reversed : bool) (config : Config) : Config :=
  withOptions (mkOptions (targetLoadCount (options config))
                         (caseSensitive (options config))
                         reversed
                         (linkedConditions (options config)))
              config.

(** [config.remove[name] = b], for the five boolean conditions. *)
Definition setRemoveFlag (name : string) (b : bool) (config : Config) : Config :=
  let r := remove config in
  withRemove
    (mkRemove (if String.eqb name "uncommented" then b else uncommented r)
              (if String.eqb name "unliked" then b else unliked r)
              (if String.eqb name "text" then b else text r)
              (if String.eqb name "images" then b else images r)
              (if String.eqb name "videos" then b else videos r)
              (containsStrings r))
    config.

Definition primitiveNames : list string :=
  ["uncommented"; "unliked"; "text"; "images"; "videos"].

(** The same entry with another text. *)
Definition withText (t : string) (node : Node) : Node :=
  mkNode t (classList node) (repliesCount node) (likesCount node)
         (img node) (video node) (youTube node).

(** The entries among the added nodes, in order. *)
Definition entriesOf (nodes : list addedNode) : list Node :=
  flat_map (fun n => match n with ActivityNode node => [node] | _ => [] end) nodes.

Definition decidesRemove (config : Config) (node : Node) : bool :=
  match shouldRemoveNode config node with
  | Normal true => true
  | _ => false
  end.

Definition decidesKeep (config : Config) (node : Node) : bool :=
  match shouldRemoveNode config node with
  | Normal false => true
  | _ => false
  end.

(** What the validator asks of one element of [linkedConditions]. *)
Definition identifierOk (v : value) : bool :=
  match v with
  | Str s => ConfigValidator.allowedConditions_includes s
  | Arr _ => false
  end.

Definition elementOk (v : value) : bool :=
  match v with
  | Str s => ConfigValidator.allowedConditions_includes s
  | Arr l => forallb identifierOk l
  end.

(** The cancel button is displayed only while the script is active. *)
Definition cancelOnlyWhileActive (w : World) : Prop :=
  cancel w = Some true -> userPressed w = true.

Definition homeOnly : Config :=
  mkConfig noRemove (mkOptions 2 false false []) (mkRunOn true false false).

Definition socialOnly : Config :=
  mkConfig noRemove (mkOptions 2 false false []) (mkRunOn false true false).

(** The strings of a pattern set, at every depth. *)
Fixpoint stringsIn (v : value) : list string :=
  match v with
  | Str s => [s]
  | Arr l => flat_map stringsIn l
  end.

(** [containsStrings: [[[]]]]: arrays only, not one string, accepted by
    [validateArrayContents]. *)
Definition nestedEmptyConfig (sensitive : bool) : Config :=
  mkConfig (mkRemove false false false false false [Arr [Arr []]])
           (mkOptions 2 sensitive false []) (mkRunOn true true false).

(** [linkedConditions: [[], 'text']] *)
Definition emptyThenBareConfig : Config :=
  mkConfig noRemove (mkOptions 2 false false [Arr []; Str "text"])
           (mkRunOn true true false).
(** * Properties *)

Lemma Normal_inj {A} (a b : A) : Normal a = Normal b -> a = b.
Proof. intros H. now injection H. Qed.

(** ** Loops whose callback always returns *)

Lemma some_normal {A} (f : A -> completion bool) (g : A -> bool) (l : list A) :
  (forall x, In x l -> f x = Normal (g x)) ->
  some f l = Normal (existsb g l).
Proof.
  induction l as [|x t IH]; intros H; simpl.
  - reflexivity.
  - rewrite (H x (or_introl eq_refl)); simpl.
    destruct (g x); simpl; [reflexivity|].
    apply IH. intros y Hy. apply H. now right.
Qed.

Lemma every_normal {A} (f : A -> completion bool) (g : A -> bool) (l : list A) :
  (forall x, In x l -> f x = Normal (g x)) ->
  every f l = Normal (forallb g l).
Proof.
  induction l as [|x t IH]; intros H; simpl.
  - reflexivity.
  - rewrite (H x (or_introl eq_refl)); simpl.
    destruct (g x); simpl; [|reflexivity].
    apply IH. intros y Hy. apply H. now right.
Qed.

Lemma mapM_normal {A B} (f : A -> completion B) (g : A -> B) (l : list A) :
  (forall x, In x l -> f x = Normal (g x)) ->
  mapM f l = Normal (map g l).
Proof.
  induction l as [|x t IH]; intros H; simpl.
  - reflexivity.
  - rewrite (H x (or_introl eq_refl)); simpl.
    rewrite IH; [reflexivity|].
    intros y Hy. apply H. now right.
Qed.

Lemma existsb_map {A B} (f : A -> B) (p : B -> bool) (l : list A) :
  existsb p (map f l) = existsb (fun x => p (f x)) l.
Proof.
  induction l as [|x t IH]; simpl; [reflexivity|]. now rewrite IH.
Qed.

Lemma forallb_map {A B} (f : A -> B) (p : B -> bool) (l : list A) :
  forallb p (map f l) = forallb (fun x => p (f x)) l.
Proof.
  induction l as [|x t IH]; simpl; [reflexivity|]. now rewrite IH.
Qed.

(** ** [includes] is the substring test *)

Lemma prefix_append s post : String.prefix s (s ++ post) = true.
Proof.
  induction s as [|c s IH]; simpl; [now destruct post|].
  destruct (ascii_dec c c) as [_|Hne]; [exact IH|now elim Hne].
Qed.

Lemma prefix_split s t :
  String.prefix s t = true -> exists post, t = s ++ post.
Proof.
  revert t. induction s as [|c s IH]; intros t H.
  - now exists t.
  - destruct t as [|c' t]; simpl in H; [discriminate|].
    destruct (ascii_dec c c') as [<-|_]; [|discriminate].
    destruct (IH t H) as [post ->]. now exists post.
Qed.

Lemma includes_substring nodeText s :
  includes nodeText s = true <-> exists pre post, nodeText = pre ++ s ++ post.
Proof.
  split.
  - induction nodeText as [|c rest IH]; cbn [includes]; intros H.
    + rewrite orb_false_r in H. destruct (prefix_split _ _ H) as [post Hpost].
      now exists "", post.
    + apply orb_prop in H. destruct H as [H|H].
      * destruct (prefix_split _ _ H) as [post Hpost]. now exists "", post.
      * destruct (IH H) as [pre [post ->]]. now exists (String c pre), post.
  - intros [pre [post ->]].
    induction pre as [|c pre IH].
    + change ("" ++ s ++ post) with (s ++ post).
      destruct (s ++ post) eqn:Heq; cbn [includes]; rewrite <- Heq;
        now rewrite prefix_append.
    + change (String c pre ++ s ++ post) with (String c (pre ++ s ++ post)).
      cbn [includes]. rewrite IH. apply orb_true_r.
Qed.

Lemma includes_empty nodeText : includes nodeText "" = true.
Proof. destruct nodeText; reflexivity. Qed.

Lemma containsString_Str config nodeText s :
  containsString config nodeText (Str s) = Normal (occursIn config nodeText s).
Proof.
  unfold containsString, occursIn.
  destruct (caseSensitive (options config)); reflexivity.
Qed.

Lemma every_containsString config nodeText l :
  forallb isString l = true ->
  every (containsString config nodeText) l
  = Normal (forallb (occursIn config nodeText) (stringsOf l)).
Proof.
  induction l as [|v t IH]; simpl; intros H; [reflexivity|].
  apply andb_prop in H. destruct H as [Hv Ht].
  destruct v as [s|inner]; [|discriminate].
  rewrite containsString_Str. simpl.
  destruct (occursIn config nodeText s); simpl; [now apply IH|reflexivity].
Qed.

Lemma checkStrings_twoLevel config node v :
  match v with Str _ => true | Arr l => forallb isString l end = true ->
  checkStrings config node v = Normal (groupMatches config node (groupOf v)).
Proof.
  destruct v as [s|l]; simpl; intros H.
  - rewrite containsString_Str. unfold groupMatches. simpl.
    now rewrite andb_true_r.
  - now apply every_containsString.
Qed.

Lemma shouldRemoveStrings_twoLevel config node reversed :
  twoLevel (containsStrings (remove config)) = true ->
  shouldRemoveStrings config node reversed
  = Normal (stringCondition_guarded config node reversed).
Proof.
  intros H. unfold shouldRemoveStrings, stringCondition_guarded, patternSetEmpty.
  destruct (List.length (flat (containsStrings (remove config))) =? 0)%nat;
    [reflexivity|].
  rewrite (some_normal (checkStrings config node)
             (fun v => groupMatches config node (groupOf v))).
  - simpl. unfold stringCondition_stated, patternGroups.
    now rewrite existsb_map.
  - intros v Hv. apply checkStrings_twoLevel.
    unfold twoLevel in H. rewrite forallb_forall in H. now apply H.
Qed.

Lemma shouldRemoveStrings_empty config node reversed :
  flat (containsStrings (remove config)) = [] ->
  shouldRemoveStrings config node reversed = Normal false.
Proof.
  intros H. unfold shouldRemoveStrings. now rewrite H.
Qed.

(** ** What the validator guarantees *)

Lemma validated_linkedConditions_ok config :
  ConfigValidator.validated config = true ->
  ConfigValidator.linkedConditions_ok (flat (linkedConditions (options config))) = true.
Proof.
  unfold ConfigValidator.validated, ConfigValidator.errors,
    ConfigValidator.validateLinkedConditions.
  destruct (ConfigValidator.linkedConditions_ok
              (flat (linkedConditions (options config)))); [reflexivity|].
  destruct (ConfigValidator.validatePositiveNonZeroInteger _ _); discriminate.
Qed.

Lemma validated_targetLoadCount config :
  ConfigValidator.validated config = true ->
  (0 < targetLoadCount (options config))%Z.
Proof.
  unfold ConfigValidator.validated, ConfigValidator.errors,
    ConfigValidator.validatePositiveNonZeroInteger.
  destruct (Z.leb_spec (targetLoadCount (options config)) 0); [discriminate|].
  intros _. assumption.
Qed.

Lemma linkedConditions_ok_app a b :
  ConfigValidator.linkedConditions_ok (a ++ b)
  = ConfigValidator.linkedConditions_ok a && ConfigValidator.linkedConditions_ok b.
Proof.
  induction a as [|v t IH]; simpl; [reflexivity|].
  destruct v as [s|l]; [|reflexivity].
  rewrite IH. now rewrite andb_assoc.
Qed.

Lemma flat_strings l : forallb isString l = true -> flat l = l.
Proof.
  induction l as [|v t IH]; simpl; intros H; [reflexivity|].
  apply andb_prop in H. destruct H as [Hv Ht].
  destruct v as [s|inner]; [|discriminate].
  now rewrite IH.
Qed.

Lemma allowed_cases (P : string -> Prop) name :
  ConfigValidator.allowedConditions_includes name = true ->
  P "uncommented" -> P "unliked" -> P "text" -> P "images" -> P "videos" ->
  P "containsStrings" -> P name.
Proof.
  unfold ConfigValidator.allowedConditions_includes,
    ConfigValidator.allowedConditions. simpl.
  intros H.
  repeat (apply orb_prop in H; destruct H as [H|H];
          [apply String.eqb_eq in H; subst name; auto|]).
  discriminate.
Qed.

(** ** Every allowed identifier resolves to a total predicate *)

Section Refinement.

Variable config : Config.
Variable node : Node.
Hypothesis patterns_twoLevel : twoLevel (containsStrings (remove config)) = true.

Local Abbreviation value_of := (conditionValue stringCondition_guarded config node).

Lemma callCondition_allowed reversed name :
  ConfigValidator.allowedConditions_includes name = true ->
  callCondition config node reversed (Str name) = Normal (value_of reversed name).
Proof.
  intros H. pattern name. apply allowed_cases; [exact H|..];
    try (destruct reversed; reflexivity).
  unfold callCondition, conditionValue. simpl.
  now apply shouldRemoveStrings_twoLevel.
Qed.

Lemma conditionsMap_entry reversed e :
  In e (conditionsMap config) ->
  snd e node reversed = Normal (value_of reversed (fst e)).
Proof.
  simpl. intros H.
  repeat (destruct H as [<-|H]; [try (destruct reversed; reflexivity)|]);
    [|contradiction].
  unfold conditionValue. simpl.
  now apply shouldRemoveStrings_twoLevel.
Qed.

Lemma checkConditions_group reversed l :
  ConfigValidator.linkedConditions_ok l = true ->
  checkConditions config node (Arr l) reversed
  = Normal (groupMatched stringCondition_guarded config node reversed (stringsOf l)).
Proof.
  intros Hok. unfold checkConditions, groupMatched.
  destruct reversed.
  - induction l as [|v t IH]; simpl; [reflexivity|].
    destruct v as [s|inner]; simpl in Hok; [|discriminate].
    apply andb_prop in Hok. destruct Hok as [Hs Ht].
    rewrite (callCondition_allowed true s Hs). simpl.
    destruct (value_of true s); simpl; [reflexivity|]. now apply IH.
  - induction l as [|v t IH]; simpl; [reflexivity|].
    destruct v as [s|inner]; simpl in Hok; [|discriminate].
    apply andb_prop in Hok. destruct Hok as [Hs Ht].
    rewrite (callCondition_allowed false s Hs). simpl.
    destruct (value_of false s); simpl; [|reflexivity]. now apply IH.
Qed.

End Refinement.

(** ** Linked groups *)

Lemma includes_name_stringsOf l name :
  includes_name l name = existsb (String.eqb name) (stringsOf l).
Proof.
  unfold includes_name.
  induction l as [|v t IH]; simpl; [reflexivity|].
  destruct v as [s|inner]; simpl.
  - now rewrite IH, String.eqb_sym.
  - exact IH.
Qed.

Lemma includes_name_app a b name :
  includes_name (a ++ b) name = includes_name a name || includes_name b name.
Proof. unfold includes_name. apply existsb_app. Qed.

Lemma uniformLinked_cases linked :
  uniformLinked linked = true ->
  forallb isString linked = true \/ forallb isArray linked = true.
Proof. unfold uniformLinked. intros H. now apply orb_prop in H. Qed.

Lemma skipChecking_claimed config name :
  uniformLinked (linkedConditions (options config)) = true ->
  skipChecking config name = claimed config name.
Proof.
  unfold skipChecking, claimed.
  generalize (linkedConditions (options config)). intros linked H.
  destruct (uniformLinked_cases _ H) as [Hs|Ha].
  - rewrite (flat_strings _ Hs).
    destruct linked as [|v t]; [reflexivity|].
    destruct v as [s|inner]; [|discriminate].
    unfold linkedGroups. cbn [existsb]. rewrite orb_false_r.
    apply includes_name_stringsOf.
  - assert (Hgen : includes_name (flat linked) name
                   = existsb (existsb (String.eqb name)) (map groupOf linked)).
    { clear H. induction linked as [|v t IH]; [reflexivity|].
      simpl in Ha. apply andb_prop in Ha. destruct Ha as [Hv Ht].
      destruct v as [s|inner]; [discriminate|].
      simpl. rewrite includes_name_app, (IH Ht).
      now rewrite includes_name_stringsOf. }
    rewrite Hgen.
    destruct linked as [|v t]; [reflexivity|].
    destruct v as [s|inner]; [discriminate|reflexivity].
Qed.

Lemma shouldRemoveByLinkedConditions_refines config node :
  ConfigValidator.validated config = true ->
  uniformLinked (linkedConditions (options config)) = true ->
  twoLevel (containsStrings (remove config)) = true ->
  shouldRemoveByLinkedConditions config node
  = Normal (existsb (groupMatched stringCondition_guarded config node
                       (reversedConditions (options config)))
                    (linkedGroups (linkedConditions (options config)))).
Proof.
  intros Hv Hu Ht.
  apply validated_linkedConditions_ok in Hv.
  unfold shouldRemoveByLinkedConditions.
  revert Hv Hu. generalize (linkedConditions (options config)).
  intros linked Hok Hu.
  destruct linked as [|first rest]; [reflexivity|].
  destruct (uniformLinked_cases _ Hu) as [Hs|Ha].
  - destruct first as [s|inner]; [|discriminate].
    rewrite (flat_strings _ Hs) in Hok.
    cbn [isArray some linkedGroups existsb].
    rewrite (checkConditions_group _ _ Ht _ _ Hok). simpl.
    now rewrite orb_false_r; destruct (groupMatched _ _ _ _ _).
  - destruct first as [s|inner]; [discriminate|].
    cbn [isArray linkedGroups].
    rewrite existsb_map.
    apply some_normal.
    intros g Hg.
    assert (Hgroup : exists l, g = Arr l /\ ConfigValidator.linkedConditions_ok l = true).
    { clear Hu. revert Hok Ha Hg. generalize (Arr inner :: rest).
      induction l as [|v t IH]; [contradiction|].
      intros Hok Ha [->|Hg].
      - destruct g as [s|l]; [discriminate|].
        simpl in Hok. rewrite linkedConditions_ok_app in Hok.
        apply andb_prop in Hok. exists l. now split.
      - simpl in Ha. apply andb_prop in Ha. destruct Ha as [Hv Ha].
        destruct v as [s|l]; [discriminate|].
        simpl in Hok. rewrite linkedConditions_ok_app in Hok.
        apply andb_prop in Hok. now apply IH. }
    destruct Hgroup as [l [-> Hl]].
    now apply checkConditions_group.
Qed.

(** ** Independent conditions *)

Lemma existsb_filter {A} (p q : A -> bool) (l : list A) :
  existsb p (filter q l) = existsb (fun x => q x && p x) l.
Proof.
  induction l as [|x t IH]; simpl; [reflexivity|].
  destruct (q x); simpl; now rewrite IH.
Qed.

Lemma filter_map_fst {A B} (q : A -> bool) (l : list (A * B)) :
  filter q (map fst l) = map fst (filter (fun e => q (fst e)) l).
Proof.
  induction l as [|x t IH]; simpl; [reflexivity|].
  destruct (q (fst x)); simpl; now rewrite IH.
Qed.

Lemma includes_bool_all (l : list bool) :
  includes_bool l true && negb (includes_bool l false)
  = negb (isEmpty l) && forallb (fun b => b) l.
Proof.
  unfold includes_bool.
  induction l as [|b t IH]; [reflexivity|].
  destruct b; simpl.
  - simpl in IH. destruct t as [|b' t']; [reflexivity|].
    simpl in *. destruct b'; simpl in *; [|reflexivity].
    rewrite <- IH. reflexivity.
  - now rewrite andb_false_r.
Qed.

Lemma conditionNames_conditionsMap config :
  conditionNames = map fst (conditionsMap config).
Proof. reflexivity. Qed.

Lemma filter_ext_in_bool {A} (p q : A -> bool) (l : list A) :
  (forall x, p x = q x) -> filter p l = filter q l.
Proof.
  intros H. induction l as [|x t IH]; simpl; [reflexivity|].
  now rewrite H, IH.
Qed.

(** ** The decision refines the specification on well-shaped
       configurations *)

Lemma shouldRemoveNode_refines config node :
  ConfigValidator.validated config = true ->
  uniformLinked (linkedConditions (options config)) = true ->
  twoLevel (containsStrings (remove config)) = true ->
  shouldRemoveNode config node
  = Normal (removes stringCondition_guarded config node).
Proof.
  intros Hv Hu Ht.
  unfold shouldRemoveNode, removes.
  rewrite (shouldRemoveByLinkedConditions_refines _ _ Hv Hu Ht). cbn [bind].
  destruct (existsb _ (linkedGroups _)); [reflexivity|]. cbn [orb].
  set (q := fun name => conditionEnabled config name && negb (claimed config name)).
  assert (Hfilter :
            filter (fun e => conditionEnabled config (fst e)
                             && negb (skipChecking config (fst e)))
                   (conditionsMap config)
            = filter (fun e => q (fst e)) (conditionsMap config)).
  { apply filter_ext_in_bool. intros e. unfold q.
    now rewrite (skipChecking_claimed _ _ Hu). }
  destruct (reversedConditions (options config)).
  - rewrite Hfilter.
    rewrite (mapM_normal _
               (fun e => conditionValue stringCondition_guarded config node true (fst e))).
    + cbn [bind]. rewrite includes_bool_all.
      unfold participating. fold q.
      rewrite (conditionNames_conditionsMap config), filter_map_fst.
      rewrite !forallb_map. clear Hfilter.
      destruct (filter _ (conditionsMap config)); reflexivity.
    + intros e He. apply filter_In in He. destruct He as [He _].
      now apply conditionsMap_entry.
  - rewrite (some_normal _
               (fun e => q (fst e)
                         && conditionValue stringCondition_guarded config node false (fst e))).
    + unfold participating. fold q.
      rewrite existsb_filter, (conditionNames_conditionsMap config), existsb_map.
      reflexivity.
    + intros e He. unfold q.
      rewrite (skipChecking_claimed _ _ Hu).
      destruct (conditionEnabled config (fst e) && negb (claimed config (fst e)));
        [|reflexivity].
      now apply conditionsMap_entry.
Qed.

Lemma shouldRemoveNode_total config node :
  ConfigValidator.validated config = true ->
  uniformLinked (linkedConditions (options config)) = true ->
  twoLevel (containsStrings (remove config)) = true ->
  exists decision, shouldRemoveNode config node = Normal decision.
Proof.
  intros Hv Hu Ht. eexists. now apply shouldRemoveNode_refines.
Qed.

(** Non-reversed, on well-shaped configurations: the entry is removed
    exactly when a participating condition holds or a linked group has
    all its members true. *)
Lemma shouldRemoveNode_nonreversed config node :
  ConfigValidator.validated config = true ->
  uniformLinked (linkedConditions (options config)) = true ->
  twoLevel (containsStrings (remove config)) = true ->
  reversedConditions (options config) = false ->
  shouldRemoveNode config node = Normal true <->
  (exists name, In name conditionNames
                /\ conditionEnabled config name = true
                /\ claimed config name = false
                /\ conditionValue stringCondition_guarded config node false name = true)
  \/ (exists group, In group (linkedGroups (linkedConditions (options config)))
                    /\ forall name, In name group ->
                         conditionValue stringCondition_guarded config node false name = true).
Proof.
  intros Hv Hu Ht Hr.
  rewrite (shouldRemoveNode_refines _ _ Hv Hu Ht).
  unfold removes, groupMatched, participating. rewrite Hr.
  split.
  - intros H. apply Normal_inj, orb_prop in H. destruct H as [H|H].
    + right. apply existsb_exists in H. destruct H as [g [Hg Hall]].
      exists g. split; [assumption|]. now apply forallb_forall.
    + left. apply existsb_exists in H. destruct H as [name [Hin Hval]].
      apply filter_In in Hin. destruct Hin as [Hin Hq].
      apply andb_prop in Hq. destruct Hq as [He Hc].
      exists name. repeat split; try assumption.
      now apply negb_true_iff.
  - intros [[name [Hin [He [Hc Hval]]]]|[g [Hg Hall]]]; f_equal; apply orb_true_iff.
    + right. apply existsb_exists. exists name. split; [|assumption].
      apply filter_In. split; [assumption|]. now rewrite He, Hc.
    + left. apply existsb_exists. exists g. split; [assumption|].
      now apply forallb_forall.
Qed.

(** ** Claims about the decision *)

(** C1.  The rule for non-reversed configurations fails on a configuration
    that the validator accepts: with
    [linkedConditions: ['uncommented', ['unliked']]] and [videos] enabled,
    the condition [videos] is enabled, not claimed, and true on an
    uncommented entry with a video, yet the decision ends in a [TypeError]
    and the entry is not removed. *)
Theorem nonreversed_rule_breaks_on_mixed_linked :
  ConfigValidator.validated mixedConfig = true
  /\ reversedConditions (options mixedConfig) = false
  /\ conditionEnabled mixedConfig "videos" = true
  /\ skipChecking mixedConfig "videos" = false
  /\ callCondition mixedConfig videoEntry false (Str "videos") = Normal true
  /\ shouldRemoveNode mixedConfig videoEntry = Throw TypeError
  /\ MainApp.removeEntry mixedConfig videoEntry initialWorld = Throw TypeError.
Proof. repeat split. Qed.

(** C4.  The per-entry decision throws on a validated configuration whose
    [linkedConditions] starts with a bare identifier and continues with a
    nested sequence: the nested sequence is looked up as a key of the
    conditions map, and the [undefined] answer is called.  The exception
    leaves [observeMutations] before [loadMoreOrReset] runs. *)
Theorem decision_throws_on_mixed_linked :
  ConfigValidator.validated mixedConfig = true
  /\ conditionsMap_get mixedConfig (Arr [Str "unliked"]) = None
  /\ shouldRemoveByLinkedConditions mixedConfig videoEntry = Throw TypeError
  /\ shouldRemoveNode mixedConfig videoEntry = Throw TypeError
  /\ MainApp.observeMutations mixedConfig true [[ActivityNode videoEntry]] initialWorld
     = (initialWorld, Throw TypeError).
Proof. repeat split. Qed.

(** In the other order the bare identifier is taken for a group, and a
    string has no [every]. *)
Lemma decision_throws_on_group_then_bare_id :
  ConfigValidator.validated groupThenBareConfig = true
  /\ shouldRemoveNode groupThenBareConfig commentedEntry = Throw TypeError.
Proof. repeat split. Qed.

(** A second way into the same exception: a pattern nested three levels
    passes [validateArrayContents], and [toLowerCase] is then called on an
    array. *)
Lemma decision_throws_on_deep_pattern :
  ConfigValidator.validated deepPatternConfig = true
  /\ uniformLinked (linkedConditions (options deepPatternConfig)) = true
  /\ shouldRemoveNode deepPatternConfig videoEntry = Throw TypeError.
Proof. repeat split. Qed.

(** C5, amended.  For a pattern set of strings and groups of strings that
    is not empty after flattening, the string condition is multi-group
    matching: a group matches when each of its strings occurs in the
    entry's text, compared case-insensitively when [caseSensitive] is
    false (text and string both go through [toLowerCase]); non-reversed
    the condition is true iff some group matches, reversed iff no group
    matches.  For an empty set it is false. *)
Theorem string_condition_multi_group config node reversed :
  twoLevel (containsStrings (remove config)) = true ->
  shouldRemoveStrings config node reversed
  = Normal
      (let anyGroup :=
         existsb (fun group => forallb (occursIn config (textContent node)) group)
                 (patternGroups config) in
       if patternSetEmpty config then false
       else if reversed then negb anyGroup else anyGroup).
Proof.
  intros H. rewrite (shouldRemoveStrings_twoLevel _ _ _ H).
  unfold stringCondition_guarded, stringCondition_stated, groupMatched.
  cbv zeta. now destruct (patternSetEmpty config).
Qed.

Lemma conditionsMap_entry_call config node reversed e :
  In e (conditionsMap config) ->
  callCondition config node reversed (Str (fst e)) = snd e node reversed.
Proof.
  simpl. intros H.
  repeat (destruct H as [<-|H]; [reflexivity|]). contradiction.
Qed.

(** When the pattern set is empty after one level of flattening (an
    empty array, or an array of empty arrays), the string condition is
    false for every entry in both modes. *)
Lemma flat_empty_pattern_set_is_false config node reversed :
  flat (containsStrings (remove config)) = [] ->
  shouldRemoveStrings config node reversed = Normal false
  /\ callCondition config node reversed (Str "containsStrings") = Normal false.
Proof.
  intros Hempty. split; exact (shouldRemoveStrings_empty config node reversed Hempty).
Qed.

Lemma flat_empty_twoLevel patterns : flat patterns = [] -> twoLevel patterns = true.
Proof.
  induction patterns as [|v t IH]; intros H; [reflexivity|].
  destruct v as [s|inner]; [discriminate|].
  simpl in H. apply app_eq_nil in H. destruct H as [-> Ht].
  simpl. now apply IH.
Qed.

Lemma conditionValue_ext f g config node reversed name :
  f config node reversed = g config node reversed ->
  conditionValue f config node reversed name
  = conditionValue g config node reversed name.
Proof. unfold conditionValue. now intros ->. Qed.

Lemma existsb_ext_all {A} (p q : A -> bool) (l : list A) :
  (forall x, p x = q x) -> existsb p l = existsb q l.
Proof.
  intros H. induction l as [|x t IH]; [reflexivity|]. simpl. now rewrite H, IH.
Qed.

Lemma forallb_ext_all {A} (p q : A -> bool) (l : list A) :
  (forall x, p x = q x) -> forallb p l = forallb q l.
Proof.
  intros H. induction l as [|x t IH]; [reflexivity|]. simpl. now rewrite H, IH.
Qed.

(** On a well-shaped configuration with such a pattern set the decision
    is the one the rule gives with the string condition constantly false:
    the empty set is never the cause of a removal. *)
Lemma flat_empty_pattern_set_never_removes config node :
  ConfigValidator.validated config = true ->
  uniformLinked (linkedConditions (options config)) = true ->
  flat (containsStrings (remove config)) = [] ->
  shouldRemoveNode config node
  = Normal (removes (fun _ _ _ => false) config node).
Proof.
  intros Hv Hu Hempty.
  rewrite (shouldRemoveNode_refines _ _ Hv Hu (flat_empty_twoLevel _ Hempty)).
  assert (Hcv : forall reversed name,
             conditionValue stringCondition_guarded config node reversed name
             = conditionValue (fun _ _ _ => false) config node reversed name).
  { intros reversed name. apply conditionValue_ext.
    unfold stringCondition_guarded, patternSetEmpty. now rewrite Hempty. }
  unfold removes, groupMatched. f_equal. f_equal.
  - apply existsb_ext_all. intros group.
    destruct (reversedConditions (options config));
      [apply existsb_ext_all|apply forallb_ext_all]; intros name; apply Hcv.
  - destruct (reversedConditions (options config)).
    + f_equal. apply forallb_ext_all. intros name. apply Hcv.
    + apply existsb_ext_all. intros name. apply Hcv.
Qed.

(** C6.  The claim fails on a pattern set that holds arrays only, nested
    one level deeper than the guard looks.  [containsStrings: [[[]]]]
    passes the validator and holds no string at any depth, yet [flat()]
    leaves one element: with [caseSensitive] true the inner array is
    compared as the empty text, the string condition is true for every
    entry and, being the only enabled condition, removes every entry;
    with [caseSensitive] false the condition throws. *)
Theorem nested_empty_pattern_set_removes_everything :
  ConfigValidator.validated (nestedEmptyConfig true) = true
  /\ flat_map stringsIn (containsStrings (remove (nestedEmptyConfig true))) = []
  /\ participating (nestedEmptyConfig true) = ["containsStrings"]
  /\ (forall node, shouldRemoveStrings (nestedEmptyConfig true) node false = Normal true)
  /\ (forall node, shouldRemoveNode (nestedEmptyConfig true) node = Normal true)
  /\ (forall node reversed,
        shouldRemoveStrings (nestedEmptyConfig false) node reversed = Throw TypeError).
Proof.
  assert (Hs : forall node,
             shouldRemoveStrings (nestedEmptyConfig true) node false = Normal true).
  { intros node. unfold shouldRemoveStrings, checkStrings, containsString. simpl.
    now rewrite includes_empty. }
  repeat split; try exact Hs.
  intros node. unfold shouldRemoveNode. simpl. now rewrite Hs.
Qed.

(** C2, amended.  For a validated, reversed configuration whose
    [linkedConditions] is one flat group or a sequence of groups and whose
    patterns are strings and groups of strings, the entry is removed iff
    some linked group has a member that is true under reversal, or the
    participating conditions are not empty and all true under reversal.
    Under reversal a primitive predicate is negated, and the string
    condition is true iff the pattern set is not empty after flattening
    and no pattern group matches.  With nothing participating, only a
    linked group can remove. *)
Theorem reversed_decision config node :
  ConfigValidator.validated config = true ->
  uniformLinked (linkedConditions (options config)) = true ->
  twoLevel (containsStrings (remove config)) = true ->
  reversedConditions (options config) = true ->
  let holds := conditionValue stringCondition_guarded config node true in
  let someGroup :=
    existsb (fun group => existsb holds group)
            (linkedGroups (linkedConditions (options config))) in
  shouldRemoveNode config node
  = Normal (someGroup
            || (negb (isEmpty (participating config))
                && forallb holds (participating config)))
  /\ (participating config = [] -> shouldRemoveNode config node = Normal someGroup)
  /\ (forall name, In name conditionNames ->
        callCondition config node true (Str name) = Normal (holds name))
  /\ holds "uncommented" = negb (shouldRemoveUncommented node)
  /\ holds "unliked" = negb (shouldRemoveUnliked node)
  /\ holds "text" = negb (shouldRemoveText node)
  /\ holds "images" = negb (shouldRemoveImage node)
  /\ holds "videos" = negb (shouldRemoveVideo node)
  /\ holds "containsStrings"
     = (negb (patternSetEmpty config)
        && negb (existsb (groupMatches config node) (patternGroups config))).
Proof.
  intros Hv Hu Ht Hr holds someGroup.
  assert (Hmain : shouldRemoveNode config node
                  = Normal (someGroup
                            || (negb (isEmpty (participating config))
                                && forallb holds (participating config)))).
  { rewrite (shouldRemoveNode_refines _ _ Hv Hu Ht).
    unfold removes, groupMatched. now rewrite Hr. }
  split; [exact Hmain|].
  split.
  - intros Hnone. rewrite Hmain, Hnone. simpl. now rewrite orb_false_r.
  - split; [|repeat split].
    intros name Hin. apply (callCondition_allowed _ _ Ht).
    apply existsb_exists. exists name. split; [exact Hin|apply String.eqb_refl].
Qed.

(** C9.  The claim fails on a validated configuration in which the
    empty group follows a bare identifier: [linkedConditions: ['text', []]]
    is taken as one group read off its first element, so the empty
    sequence is looked up as a condition; an entry that is not text is
    kept, where the claim removes every entry, and a text entry makes the
    decision throw. *)
Theorem empty_group_after_bare_id_keeps :
  ConfigValidator.validated bareThenEmptyConfig = true
  /\ In (Arr []) (linkedConditions (options bareThenEmptyConfig))
  /\ reversedConditions (options bareThenEmptyConfig) = false
  /\ shouldRemoveByLinkedConditions bareThenEmptyConfig videoEntry = Normal false
  /\ shouldRemoveNode bareThenEmptyConfig videoEntry = Normal false
  /\ shouldRemoveNode bareThenEmptyConfig commentedEntry = Throw TypeError.
Proof. repeat split. simpl. auto. Qed.

Lemma linkedGroups_arrays linked :
  forallb isArray linked = true -> linkedGroups linked = map groupOf linked.
Proof.
  destruct linked as [|v t]; [reflexivity|].
  destruct v as [s|l]; [discriminate|reflexivity].
Qed.

(** On well-shaped input the empty group does what the claim says.  When
    [linkedConditions] is a sequence of groups of condition identifiers
    (validated, no bare identifier among its elements, patterns being
    strings and groups of strings) and one of the groups is empty, then,
    non-reversed, the linked-group check is true and every entry is
    removed; reversed, the empty group itself never matches. *)
Lemma empty_linked_group_removes_all config node :
  ConfigValidator.validated config = true ->
  forallb isArray (linkedConditions (options config)) = true ->
  twoLevel (containsStrings (remove config)) = true ->
  In (Arr []) (linkedConditions (options config)) ->
  (reversedConditions (options config) = false ->
   checkConditions config node (Arr []) false = Normal true
   /\ shouldRemoveByLinkedConditions config node = Normal true
   /\ shouldRemoveNode config node = Normal true)
  /\ checkConditions config node (Arr []) true = Normal false.
Proof.
  intros Hv Ha Ht Hin. split; [|reflexivity].
  intros Hr.
  assert (Hu : uniformLinked (linkedConditions (options config)) = true).
  { unfold uniformLinked. rewrite Ha. apply orb_true_r. }
  assert (Hlinked : shouldRemoveByLinkedConditions config node = Normal true).
  { rewrite (shouldRemoveByLinkedConditions_refines _ _ Hv Hu Ht).
    f_equal. rewrite (linkedGroups_arrays _ Ha). apply existsb_exists.
    exists (groupOf (Arr [])). split.
    - now apply in_map.
    - now rewrite Hr. }
  split; [reflexivity|]. split; [exact Hlinked|].
  unfold shouldRemoveNode. now rewrite Hlinked.
Qed.

(** An empty group in first place removes every entry whatever follows
    it, a bare identifier included. *)
Lemma leading_empty_group_removes_all config node rest :
  linkedConditions (options config) = Arr [] :: rest ->
  reversedConditions (options config) = false ->
  shouldRemoveNode config node = Normal true.
Proof.
  intros Hl Hr. unfold shouldRemoveNode, shouldRemoveByLinkedConditions.
  rewrite Hl, Hr. reflexivity.
Qed.

Example empty_group_before_bare_id_removes node :
  ConfigValidator.validated emptyThenBareConfig = true
  /\ shouldRemoveNode emptyThenBareConfig node = Normal true.
Proof.
  split; [reflexivity|].
  exact (leading_empty_group_removes_all emptyThenBareConfig node [Str "text"]
           eq_refl eq_refl).
Qed.

(** ** Pagination *)

Import UIHandler MainApp.

Lemma clickListener_fields w :
  clicks (clickListener w) = clicks w
  /\ loadMore (clickListener w) = loadMore w
  /\ listeners (clickListener w) = listeners w
  /\ currentLoadCount (clickListener w) = currentLoadCount w
  /\ userPressed (clickListener w) = true.
Proof.
  unfold clickListener, showCancel, createCancel, simulateDomEvents.
  destruct w as [n u c l ls i s k r]. simpl. destruct c; simpl; repeat split.
Qed.

Lemma iterate_clickListener_fields n : forall w,
  clicks (iterate n clickListener w) = clicks w
  /\ loadMore (iterate n clickListener w) = loadMore w
  /\ listeners (iterate n clickListener w) = listeners w
  /\ currentLoadCount (iterate n clickListener w) = currentLoadCount w
  /\ (userPressed w = true -> userPressed (iterate n clickListener w) = true).
Proof.
  induction n as [|k IH]; intros w; simpl; [repeat split; auto|].
  destruct (IH (clickListener w)) as [H1 [H2 [H3 [H4 H5]]]].
  destruct (clickListener_fields w) as [G1 [G2 [G3 [G4 G5]]]].
  rewrite H1, H2, H3, H4, G1, G2, G3, G4. repeat split. intros _. now apply H5.
Qed.

Lemma dispatchClick_fields b w :
  clicks (dispatchClick b w) = clicks w
  /\ loadMore (dispatchClick b w) = loadMore w
  /\ listeners (dispatchClick b w) = listeners w
  /\ currentLoadCount (dispatchClick b w) = currentLoadCount w
  /\ (userPressed w = true -> userPressed (dispatchClick b w) = true).
Proof. unfold dispatchClick. apply iterate_clickListener_fields. Qed.

Lemma dispatchClick_unregistered b w :
  ~ In b (listeners w) -> dispatchClick b w = w.
Proof.
  intros H. unfold dispatchClick.
  now rewrite (proj1 (count_occ_not_In Nat.eq_dec (listeners w) b) H).
Qed.

Lemma clickLoadMore_held w b :
  loadMore w = Some b ->
  clicks (clickLoadMore w) = (clicks w ++ [b])%list
  /\ loadMore (clickLoadMore w) = None
  /\ listeners (clickLoadMore w) = listeners w
  /\ currentLoadCount (clickLoadMore w) = currentLoadCount w
  /\ (userPressed w = true -> userPressed (clickLoadMore w) = true).
Proof.
  intros H. unfold clickLoadMore. rewrite H.
  destruct (dispatchClick_fields b (set_clicks (clicks w ++ [b]) w))
    as [H1 [H2 [H3 [H4 H5]]]].
  simpl. rewrite H1, H3, H4. repeat split. exact H5.
Qed.

Lemma clickLoadMore_none w : loadMore w = None -> clickLoadMore w = w.
Proof. intros H. unfold clickLoadMore. now rewrite H. Qed.

(** Handling the added nodes leaves the controller's flag, the cancel
    button and the click log alone. *)
Lemma handleAddedNode_controller config n w w' :
  handleAddedNode config n w = Normal w' ->
  userPressed w' = userPressed w /\ clicks w' = clicks w /\ cancel w' = cancel w.
Proof.
  destruct n as [node|b|]; simpl.
  - unfold removeEntry.
    destruct (shouldRemoveNode config node) as [[|]|e]; simpl; intros H;
      try discriminate; apply Normal_inj in H; subst w'; repeat split.
  - intros H. apply Normal_inj in H. subst w'. repeat split.
  - intros H. apply Normal_inj in H. subst w'. repeat split.
Qed.

Lemma handleAddedNodes_controller config nodes : forall w,
  let w' := fst (handleAddedNodes config nodes w) in
  userPressed w' = userPressed w /\ clicks w' = clicks w /\ cancel w' = cancel w.
Proof.
  induction nodes as [|n rest IH]; intros w; simpl; [repeat split|].
  destruct (handleAddedNode config n w) as [w1|e] eqn:Hn; simpl; [|repeat split].
  destruct (handleAddedNode_controller _ _ _ _ Hn) as [H1 [H2 H3]].
  destruct (IH w1) as [G1 [G2 G3]]. simpl in G1, G2, G3.
  rewrite G1, G2, G3. auto.
Qed.

Lemma resetState_fields w :
  let w' := UIHandler.resetState (MainApp.resetState w) in
  currentLoadCount w' = 0%Z /\ userPressed w' = false /\ cancel w' <> Some true
  /\ clicks w' = clicks w /\ loadMore w' = loadMore w
  /\ listeners w' = listeners w.
Proof.
  unfold UIHandler.resetState, MainApp.resetState, hideCancel.
  destruct w as [n u c l ls i s k r]. simpl.
  destruct c; simpl; repeat split; discriminate.
Qed.

(** C3.  [loadMoreOrReset] either continues or resets.  Below the target
    with the flag set, the held control (if any) is invoked and released,
    and the count and the flag stay; otherwise the count becomes 0, the
    flag false and the cancel button is not displayed, and no control is
    invoked.  A batch that is handled without exception ends with this
    step. *)
Theorem loadMoreOrReset_continues_or_resets config w :
  (let w' := loadMoreOrReset config w in
   if (currentLoadCount w <? targetLoadCount (options config))%Z && userPressed w
   then clicks w' = (clicks w ++ match loadMore w with Some b => [b] | None => [] end)%list
        /\ loadMore w' = None
        /\ currentLoadCount w' = currentLoadCount w
        /\ userPressed w' = true
   else currentLoadCount w' = 0%Z
        /\ userPressed w' = false
        /\ cancel w' <> Some true
        /\ clicks w' = clicks w
        /\ loadMore w' = loadMore w)
  /\ (forall mutations,
        snd (handleAddedNodes config (List.concat mutations) w) = Normal tt ->
        observeMutations config true mutations w
        = (loadMoreOrReset config
             (fst (handleAddedNodes config (List.concat mutations) w)),
           Normal tt)).
Proof.
  split.
  - unfold loadMoreOrReset.
    destruct ((currentLoadCount w <? targetLoadCount (options config))%Z
              && userPressed w) eqn:Hc.
    + apply andb_prop in Hc. destruct Hc as [_ Hu].
      destruct (loadMore w) as [b|] eqn:Hl.
      * destruct (clickLoadMore_held _ _ Hl) as [H1 [H2 [H3 [H4 H5]]]]. auto.
      * rewrite (clickLoadMore_none _ Hl), app_nil_r. auto.
    + destruct (resetState_fields w) as [H1 [H2 [H3 [H4 [H5 H6]]]]]. auto.
  - intros mutations H. unfold observeMutations.
    destruct (handleAddedNodes config (List.concat mutations) w) as [w1 [[]|e]];
      [reflexivity|discriminate].
Qed.

Lemma loadMoreOrReset_inactive config w :
  userPressed w = false ->
  clicks (loadMoreOrReset config w) = clicks w
  /\ userPressed (loadMoreOrReset config w) = false.
Proof.
  intros H. unfold loadMoreOrReset. rewrite H, andb_false_r.
  destruct (resetState_fields w) as [_ [H2 [_ [H4 _]]]]. auto.
Qed.

Lemma observeMutations_inactive config allowedUrl mutations w :
  userPressed w = false ->
  clicks (fst (observeMutations config allowedUrl mutations w)) = clicks w
  /\ userPressed (fst (observeMutations config allowedUrl mutations w)) = false.
Proof.
  intros H. unfold observeMutations.
  destruct allowedUrl; [|auto].
  destruct (handleAddedNodes_controller config (List.concat mutations) w)
    as [H1 [H2 _]].
  destruct (handleAddedNodes config (List.concat mutations) w) as [w1 [[]|e]];
    simpl in *.
  - rewrite H in H1.
    destruct (loadMoreOrReset_inactive config w1 H1) as [G1 G2].
    rewrite G1, H2. auto.
  - rewrite H1, H2. auto.
Qed.

Lemma step_inactive config w e :
  userPressed w = false ->
  isUserClick e = false ->
  clicks (step config w e) = clicks w /\ userPressed (step config w e) = false.
Proof.
  intros H He. destruct e as [allowedUrl mutations|b| |]; simpl.
  - now apply observeMutations_inactive.
  - discriminate.
  - unfold cancelClick. destruct (cancel w); auto.
  - unfold intervalTick. destruct (intervals w); [auto|]. rewrite H. auto.
Qed.

(** C7.  Once the flag is false, no batch invokes a load-more control,
    whatever the count and the target; through any sequence of batches,
    cancel clicks and timer ticks the flag stays false and nothing is
    invoked; the only event after which the flag is true is a user's click
    on a control that [setLoadMore] has seen. *)
Theorem inactive_never_continues config w :
  userPressed w = false ->
  (forall allowedUrl mutations,
      clicks (fst (observeMutations config allowedUrl mutations w)) = clicks w
      /\ userPressed (fst (observeMutations config allowedUrl mutations w)) = false)
  /\ (forall events,
        forallb (fun e => negb (isUserClick e)) events = true ->
        clicks (run config events w) = clicks w
        /\ userPressed (run config events w) = false)
  /\ (forall e,
        userPressed (step config w e) = true ->
        exists b, e = UserClick b /\ In b (listeners w)).
Proof.
  intros H. split; [|split].
  - intros allowedUrl mutations. now apply observeMutations_inactive.
  - intros events. revert w H. unfold run.
    induction events as [|e rest IH]; intros w H Hev; simpl; [auto|].
    simpl in Hev. apply andb_prop in Hev. destruct Hev as [He Hrest].
    apply negb_true_iff in He.
    destruct (step_inactive config w e H He) as [H1 H2].
    destruct (IH _ H2 Hrest) as [G1 G2]. rewrite G1, G2, H1. auto.
  - intros e He. destruct e as [allowedUrl mutations|b| |].
    + destruct (step_inactive config w (Mutations allowedUrl mutations) H eq_refl)
        as [_ H2]. rewrite H2 in He. discriminate.
    + exists b. split; [reflexivity|].
      destruct (in_dec Nat.eq_dec b (listeners w)) as [Hin|Hout]; [assumption|].
      simpl in He. rewrite (dispatchClick_unregistered _ _ Hout), H in He.
      discriminate.
    + destruct (step_inactive config w CancelClick H eq_refl) as [_ H2].
      rewrite H2 in He. discriminate.
    + destruct (step_inactive config w Tick H eq_refl) as [_ H2].
      rewrite H2 in He. discriminate.
Qed.

(** ** The held reference is single-use *)

Lemma singleUse_initial : singleUse initialWorld.
Proof. intros b. cbv. lia. Qed.

Lemma singleUse_same w w' :
  clicks w' = clicks w -> loadMore w' = loadMore w -> listeners w' = listeners w ->
  singleUse w -> singleUse w'.
Proof.
  intros H1 H2 H3 H b. unfold invoked, held, registered.
  rewrite H1, H2, H3. apply H.
Qed.

Lemma singleUse_setLoadMore b w : singleUse w -> singleUse (setLoadMore b w).
Proof.
  intros H b'. specialize (H b').
  unfold invoked, held, registered, setLoadMore in *.
  cbn [clicks loadMore listeners set_listeners set_loadMore].
  destruct (Nat.eq_dec b b') as [Heq|Hne].
  - rewrite (count_occ_cons_eq Nat.eq_dec _ Heq). subst b'.
    rewrite Nat.eqb_refl.
    destruct (loadMore w) as [b0|]; [destruct (b0 =? b)%nat|]; unfold button in *; lia.
  - rewrite (count_occ_cons_neq Nat.eq_dec _ Hne).
    apply Nat.eqb_neq in Hne. rewrite Hne.
    destruct (loadMore w) as [b0|]; [destruct (b0 =? b')%nat|]; unfold button in *; lia.
Qed.

Lemma singleUse_clickLoadMore w : singleUse w -> singleUse (clickLoadMore w).
Proof.
  intros H. destruct (loadMore w) as [b|] eqn:Hl.
  - destruct (clickLoadMore_held _ _ Hl) as [H1 [H2 [H3 _]]].
    intros b'. specialize (H b').
    unfold invoked, held, registered in *.
    rewrite H1, H2, H3. rewrite Hl in H. rewrite count_occ_app.
    destruct (Nat.eq_dec b b') as [Heq|Hne].
    + rewrite (count_occ_cons_eq Nat.eq_dec _ Heq). subst b'.
      rewrite Nat.eqb_refl in H. simpl. unfold button in *. lia.
    + rewrite (count_occ_cons_neq Nat.eq_dec _ Hne).
      apply Nat.eqb_neq in Hne. rewrite Hne in H. simpl. unfold button in *. lia.
  - now rewrite (clickLoadMore_none _ Hl).
Qed.

Lemma singleUse_handleAddedNode config n w w' :
  handleAddedNode config n w = Normal w' -> singleUse w -> singleUse w'.
Proof.
  destruct n as [node|b|]; simpl.
  - unfold removeEntry.
    destruct (shouldRemoveNode config node) as [[|]|e]; simpl; intros H;
      try discriminate; apply Normal_inj in H; subst w';
      now apply singleUse_same.
  - intros H. apply Normal_inj in H. subst w'. apply singleUse_setLoadMore.
  - intros H. apply Normal_inj in H. now subst w'.
Qed.

Lemma singleUse_handleAddedNodes config nodes : forall w,
  singleUse w -> singleUse (fst (handleAddedNodes config nodes w)).
Proof.
  induction nodes as [|n rest IH]; intros w H; simpl; [assumption|].
  destruct (handleAddedNode config n w) as [w1|e] eqn:Hn; simpl; [|assumption].
  apply IH. exact (singleUse_handleAddedNode _ _ _ _ Hn H).
Qed.

Lemma singleUse_loadMoreOrReset config w :
  singleUse w -> singleUse (loadMoreOrReset config w).
Proof.
  intros H. unfold loadMoreOrReset.
  destruct ((currentLoadCount w <? targetLoadCount (options config))%Z
            && userPressed w).
  - now apply singleUse_clickLoadMore.
  - destruct (resetState_fields w) as [_ [_ [_ [H4 [H5 H6]]]]].
    exact (singleUse_same _ _ H4 H5 H6 H).
Qed.

Lemma singleUse_step config w e : singleUse w -> singleUse (step config w e).
Proof.
  intros H. destruct e as [allowedUrl mutations|b| |]; simpl.
  - unfold observeMutations. destruct allowedUrl; [|assumption].
    pose proof (singleUse_handleAddedNodes config (List.concat mutations) w H) as H1.
    destruct (handleAddedNodes config (List.concat mutations) w) as [w1 [[]|e]];
      simpl in *; [now apply singleUse_loadMoreOrReset|assumption].
  - destruct (dispatchClick_fields b w) as [H1 [H2 [H3 _]]].
    exact (singleUse_same _ _ H1 H2 H3 H).
  - unfold cancelClick. destruct (cancel w); [|assumption].
    now apply (singleUse_same w).
  - unfold intervalTick. destruct (intervals w); [assumption|].
    destruct (userPressed w); now apply (singleUse_same w).
Qed.

Lemma singleUse_run config events : forall w,
  singleUse w -> singleUse (run config events w).
Proof.
  unfold run. induction events as [|e rest IH]; intros w H; simpl; [assumption|].
  apply IH. now apply singleUse_step.
Qed.

(** C8, amended.  [clickLoadMore] invokes the held control once and
    clears the reference in the same step; without a held control it
    changes nothing, so a second call in a row invokes nothing; and over
    any history of the page a control is invoked by the script at most as
    often as it was handed to [setLoadMore], hence at most once when it
    was handed over once. *)
Theorem clickLoadMore_single_use :
  (forall w b,
      loadMore w = Some b ->
      clicks (clickLoadMore w) = (clicks w ++ [b])%list
      /\ loadMore (clickLoadMore w) = None)
  /\ (forall w, loadMore w = None -> clickLoadMore w = w)
  /\ (forall w, clickLoadMore (clickLoadMore w) = clickLoadMore w)
  /\ (forall config events b,
        let w := run config events initialWorld in
        invoked w b <= registered w b /\ (registered w b <= 1 -> invoked w b <= 1)).
Proof.
  split; [|split; [|split]].
  - intros w b H. destruct (clickLoadMore_held _ _ H) as [H1 [H2 _]]. auto.
  - exact clickLoadMore_none.
  - intros w. destruct (loadMore w) as [b|] eqn:Hl.
    + apply clickLoadMore_none. now destruct (clickLoadMore_held _ _ Hl) as [_ [H2 _]].
    + now rewrite (clickLoadMore_none _ Hl), (clickLoadMore_none _ Hl).
  - intros config events b w.
    pose proof (singleUse_run config events initialWorld singleUse_initial b) as H.
    fold w in H. lia.
Qed.

Lemma handleAddedNodes_loadMore config nodes : forall w,
  snd (handleAddedNodes config nodes w) = Normal tt ->
  loadMore (fst (handleAddedNodes config nodes w)) = lastButtonFrom (loadMore w) nodes.
Proof.
  induction nodes as [|n rest IH]; intros w H; [reflexivity|].
  simpl in *.
  destruct (handleAddedNode config n w) as [w1|e] eqn:Hn; [|discriminate].
  rewrite (IH w1 H). f_equal.
  destruct n as [node|b|]; simpl in Hn.
  - unfold removeEntry in Hn.
    destruct (shouldRemoveNode config node) as [[|]|e]; simpl in Hn;
      try discriminate; apply Normal_inj in Hn; now subst w1.
  - apply Normal_inj in Hn. now subst w1.
  - apply Normal_inj in Hn. now subst w1.
Qed.

(** C10.  A new [UIHandler] has [userPressed] true.  So when the first
    batch after construction is handled, leaves fewer survivors than
    [targetLoadCount] and has delivered a load-more control, that control
    is invoked, although no user click has happened. *)
Theorem first_batch_auto_continues config mutations b :
  let w1 := fst (handleAddedNodes config (List.concat mutations) initialWorld) in
  snd (handleAddedNodes config (List.concat mutations) initialWorld) = Normal tt ->
  (currentLoadCount w1 < targetLoadCount (options config))%Z ->
  lastButtonFrom None (List.concat mutations) = Some b ->
  userPressed initialWorld = true
  /\ clicks (run config [Mutations true mutations] initialWorld) = [b].
Proof.
  intros w1 Hok Hcount Hb. split; [reflexivity|].
  assert (Hl : loadMore w1 = Some b).
  { unfold w1. now rewrite (handleAddedNodes_loadMore _ _ _ Hok). }
  unfold run. simpl. unfold observeMutations.
  destruct (handleAddedNodes_controller config (List.concat mutations) initialWorld)
    as [H1 [H2 _]]. fold w1 in H1, H2.
  destruct (handleAddedNodes config (List.concat mutations) initialWorld)
    as [w' [[]|e]] eqn:Hh; [|discriminate].
  simpl in w1. subst w1. simpl.
  unfold loadMoreOrReset.
  apply Z.ltb_lt in Hcount. rewrite Hcount, H1. simpl.
  destruct (clickLoadMore_held _ _ Hl) as [G1 _]. now rewrite G1, H2.
Qed.

(** ** The scenarios of the specification *)

(** Scenario A: entries 1 and 3 are removed, one survives, and the held
    control is invoked. *)
Example scenario_A :
  let w := run defaultConfig
             [Mutations true ([ButtonNode 7] :: scenarioBatch)] initialWorld in
  removed w = [uncommentedEntry; uncommentedEntry] /\ clicks w = [7]
  /\ currentLoadCount w = 1%Z.
Proof. repeat split. Qed.

(** Scenario B: reversed, only the commented entry is removed; two
    survive and the state is reset. *)
Example scenario_B :
  let w := run reversedDefaultConfig
             [Mutations true ([ButtonNode 7] :: scenarioBatch)] initialWorld in
  removed w = [commentedEntry] /\ clicks w = [] /\ currentLoadCount w = 0%Z
  /\ userPressed w = false.
Proof. repeat split. Qed.

(** Scenario D: a linked group of images and videos does not match an
    entry with an image only, and both conditions are claimed. *)
Example scenario_D :
  shouldRemoveNode imageAndVideoConfig imageEntry = Normal false.
Proof. reflexivity. Qed.

(** * Further properties *)

(** ** The URL gate *)

Lemma matchHere_star a r s :
  RegExp.matchHere (RegExp.Star a :: r) s
  = RegExp.matchHere r s
    || match s with
       | String c s' => RegExp.matchAtom a c && RegExp.matchHere (RegExp.Star a :: r) s'
       | EmptyString => false
       end.
Proof. destruct s; reflexivity. Qed.

Lemma matchHere_append re : forall s post,
  RegExp.matchHere re s = true -> RegExp.matchHere re (s ++ post) = true.
Proof.
  induction re as [|i r IH]; intros s post H; [reflexivity|].
  destruct i as [a|a].
  - destruct s as [|c s']; simpl in *; [discriminate|].
    apply andb_prop in H. destruct H as [Hc Hr].
    rewrite Hc. simpl. now apply IH.
  - induction s as [|c s' IHs].
    + rewrite matchHere_star in H. rewrite orb_false_r in H.
      rewrite matchHere_star. rewrite (IH _ post H). reflexivity.
    + rewrite matchHere_star in H. apply orb_prop in H.
      change (String c s' ++ post) with (String c (s' ++ post)).
      rewrite matchHere_star. destruct H as [H|H].
      * pose proof (IH _ post H) as Hm.
        change (String c s' ++ post) with (String c (s' ++ post)) in Hm.
        rewrite Hm. reflexivity.
      * apply andb_prop in H. destruct H as [Hc Hs].
        rewrite Hc, (IHs Hs). apply orb_true_r.
Qed.

Lemma test_append_r re : forall s post,
  RegExp.test re s = true -> RegExp.test re (s ++ post) = true.
Proof.
  induction s as [|c s' IH]; intros post H.
  - simpl in H. rewrite orb_false_r in H.
    pose proof (matchHere_append re "" post H) as Hm.
    change ("" ++ post) with post in *.
    destruct post; simpl; now rewrite Hm.
  - change (String c s' ++ post) with (String c (s' ++ post)).
    cbn [RegExp.test] in *. apply orb_prop in H. destruct H as [H|H].
    + pose proof (matchHere_append re _ post H) as Hm.
      change (String c s' ++ post) with (String c (s' ++ post)) in Hm.
      now rewrite Hm.
    + rewrite (IH post H). apply orb_true_r.
Qed.

Lemma test_append_l re pre : forall s,
  RegExp.test re s = true -> RegExp.test re (pre ++ s) = true.
Proof.
  induction pre as [|c pre IH]; intros s H; [exact H|].
  change (String c pre ++ s) with (String c (pre ++ s)).
  cbn [RegExp.test]. rewrite (IH s H). apply orb_true_r.
Qed.

Lemma patternTest_contained urlPattern href pre post :
  Location.patternTest urlPattern href = true ->
  Location.patternTest urlPattern (pre ++ href ++ post) = true.
Proof.
  unfold Location.patternTest.
  destruct (RegExp.compile (replaceStar urlPattern)) as [re|]; [|discriminate].
  intros H. now apply test_append_l, test_append_r.
Qed.

(** X1.  The test is not anchored: a location that contains an allowed
    location anywhere (in its path or in its query string) is allowed. *)
Theorem isAllowedUrl_contained config href pre post :
  Location.isAllowedUrl config href = true ->
  Location.isAllowedUrl config (pre ++ href ++ post) = true.
Proof.
  unfold Location.isAllowedUrl. intros H.
  apply existsb_exists in H. destruct H as [entry [Hin Htest]].
  apply existsb_exists. exists entry. split; [exact Hin|].
  now apply patternTest_contained.
Qed.

(** X2.  With no surface enabled in [runOn] no location is allowed, and a
    batch of mutations changes nothing: no entry is removed or counted, no
    control is held or invoked, and the state is not reset. *)
Theorem nothing_runs_when_no_surface_enabled config href mutations w :
  home (runOn config) = false ->
  profile (runOn config) = false ->
  social (runOn config) = false ->
  Location.isAllowedUrl config href = false
  /\ Location.observeMutations config href mutations w = (w, Normal tt).
Proof.
  intros Hh Hp Hs.
  assert (H : Location.isAllowedUrl config href = false).
  { unfold Location.isAllowedUrl, Location.URLS, Location.runOn_get.
    simpl. now rewrite Hh, Hp, Hs. }
  split; [exact H|].
  unfold Location.observeMutations, MainApp.observeMutations. now rewrite H.
Qed.

Lemma matchHere_star_dot r name : forall s,
  noLineTerminator name = true ->
  RegExp.matchHere r s = true ->
  RegExp.matchHere (RegExp.Star RegExp.Dot :: r) (name ++ s) = true.
Proof.
  induction name as [|c name IH]; intros s Hn Hr.
  - change ("" ++ s) with s. rewrite matchHere_star, Hr. reflexivity.
  - change (String c name ++ s) with (String c (name ++ s)).
    simpl in Hn. apply andb_prop in Hn. destruct Hn as [Hc Hn].
    rewrite matchHere_star. cbn [RegExp.matchAtom].
    rewrite Hc, (IH s Hn Hr). apply orb_true_r.
Qed.

Lemma RegExp_test_here re s : RegExp.matchHere re s = true -> RegExp.test re s = true.
Proof. intros H. destruct s; simpl; now rewrite H. Qed.

Lemma splitOnes_eq re :
  re = (map RegExp.One (fst (splitOnes re)) ++ snd (splitOnes re))%list.
Proof.
  induction re as [|i r IH]; [reflexivity|].
  destruct i as [a|a]; [|reflexivity].
  simpl. destruct (splitOnes r) as [atoms tail]. simpl in *. now rewrite <- IH.
Qed.

Lemma matchHere_ones atoms : forall p r s,
  matchOnes atoms p = true ->
  RegExp.matchHere (map RegExp.One atoms ++ r)%list (p ++ s) = RegExp.matchHere r s.
Proof.
  induction atoms as [|a atoms IH]; intros p r s H.
  - destruct p; [reflexivity|discriminate].
  - destruct p as [|c p]; [discriminate|].
    simpl in H. apply andb_prop in H. destruct H as [Hc Hp].
    change (String c p ++ s) with (String c (p ++ s)).
    cbn [map app RegExp.matchHere]. rewrite Hc. simpl. now apply IH.
Qed.

Ltac literal_prefix urlPattern :=
  unfold Location.patternTest; cbn [snd];
  let re := eval vm_compute in (RegExp.compile (replaceStar urlPattern)) in
  change (RegExp.compile (replaceStar urlPattern)) with re;
  apply RegExp_test_here;
  match goal with
  | |- RegExp.matchHere ?r _ = true =>
      rewrite (splitOnes_eq r);
      let x := eval vm_compute in (splitOnes r) in
      change (splitOnes r) with x; cbn [fst snd];
      rewrite matchHere_ones by reflexivity
  end.

(** X3.  The families of locations that the patterns accept.  With
    [runOn.profile], every location
    [https://anilist.co/user/<name>/<rest>]; with [runOn.social], every
    location [https://anilist.co/<path>/social<rest>], the social tab of a
    profile among them, whatever [runOn.profile] says; with [runOn.home],
    every location that starts with [https://anilist.co/home].  (Neither
    [<name>] nor [<path>] holds a line terminator.) *)
Theorem isAllowedUrl_families config name rest :
  noLineTerminator name = true ->
  (profile (runOn config) = true ->
   Location.isAllowedUrl config ("https://anilist.co/user/" ++ name ++ "/" ++ rest) = true)
  /\ (social (runOn config) = true ->
      Location.isAllowedUrl config ("https://anilist.co/" ++ name ++ "/social" ++ rest) = true)
  /\ (home (runOn config) = true ->
      Location.isAllowedUrl config ("https://anilist.co/home" ++ rest) = true).
Proof.
  intros Hn. split; [|split]; intros Hflag;
    unfold Location.isAllowedUrl; apply existsb_exists.
  - exists ("profile", "https://anilist.co/user/*/"). split.
    + apply filter_In. split; [simpl; auto|].
      unfold Location.runOn_get. simpl. exact Hflag.
    + literal_prefix "https://anilist.co/user/*/".
      apply (matchHere_star_dot _ name _ Hn). reflexivity.
  - exists ("social", "https://anilist.co/*/social"). split.
    + apply filter_In. split; [simpl; auto|].
      unfold Location.runOn_get. simpl. exact Hflag.
    + literal_prefix "https://anilist.co/*/social".
      apply (matchHere_star_dot _ name _ Hn). reflexivity.
  - exists ("home", "https://anilist.co/home"). split.
    + apply filter_In. split; [simpl; auto|].
      unfold Location.runOn_get. simpl. exact Hflag.
    + literal_prefix "https://anilist.co/home". reflexivity.
Qed.

Lemma matchHere_literal_prefix p : forall r s,
  RegExp.matchHere
    (map RegExp.One (map RegExp.Lit (list_ascii_of_string p)) ++ r)%list s = true ->
  String.prefix p s = true.
Proof.
  induction p as [|c p IH]; intros r s H.
  - now destruct s.
  - destruct s as [|d s]; simpl in H; [discriminate|].
    apply andb_prop in H. destruct H as [Hc Hr].
    apply Ascii.eqb_eq in Hc. subst d. simpl.
    destruct (ascii_dec c c) as [_|Hne]; [now apply (IH r)|now elim Hne].
Qed.

Lemma test_literal_includes p r : forall s,
  RegExp.test
    (map RegExp.One (map RegExp.Lit (list_ascii_of_string p)) ++ r)%list s = true ->
  includes s p = true.
Proof.
  induction s as [|c s IH]; cbn [RegExp.test includes]; intros H;
    apply orb_prop in H; destruct H as [H|H]; try discriminate.
  - now rewrite (matchHere_literal_prefix _ _ _ H).
  - now rewrite (matchHere_literal_prefix _ _ _ H).
  - rewrite (IH H). apply orb_true_r.
Qed.

Lemma URLS_compile entry :
  In entry Location.URLS ->
  exists r,
    RegExp.compile (replaceStar (snd entry))
    = Some (map RegExp.One (map RegExp.Lit (list_ascii_of_string "https://anilist"))
            ++ r)%list.
Proof.
  unfold Location.URLS. simpl.
  intros [<-|[<-|[<-|[]]]]; eexists; cbn; reflexivity.
Qed.

(** X4.  Whatever [runOn] enables, an allowed location contains
    [https://anilist]: on every other page the observer changes
    nothing. *)
Theorem isAllowedUrl_only_anilist config href mutations w :
  includes href "https://anilist" = false ->
  Location.isAllowedUrl config href = false
  /\ Location.observeMutations config href mutations w = (w, Normal tt).
Proof.
  intros Hno.
  assert (H : Location.isAllowedUrl config href = false).
  { destruct (Location.isAllowedUrl config href) eqn:Ha; [|reflexivity].
    unfold Location.isAllowedUrl in Ha. apply existsb_exists in Ha.
    destruct Ha as [entry [Hin Htest]]. apply filter_In in Hin.
    destruct Hin as [Hin _].
    destruct (URLS_compile entry Hin) as [r Hre].
    unfold Location.patternTest in Htest. rewrite Hre in Htest.
    pose proof (test_literal_includes _ _ _ Htest) as Hinc.
    rewrite Hinc in Hno. discriminate. }
  split; [exact H|].
  unfold Location.observeMutations, MainApp.observeMutations. now rewrite H.
Qed.

(** ** The validator *)

Lemma linkedConditions_ok_identifiers l :
  ConfigValidator.linkedConditions_ok l = forallb identifierOk l.
Proof.
  induction l as [|v t IH]; [reflexivity|].
  destruct v as [s|inner]; simpl; [now rewrite IH|reflexivity].
Qed.

Lemma linkedConditions_ok_flat linked :
  ConfigValidator.linkedConditions_ok (flat linked) = forallb elementOk linked.
Proof.
  induction linked as [|v t IH]; [reflexivity|].
  destruct v as [s|inner]; simpl.
  - now rewrite IH.
  - now rewrite linkedConditions_ok_app, IH, linkedConditions_ok_identifiers.
Qed.

(** X5.  What [validate] accepts: a positive [targetLoadCount], and a
    [linkedConditions] each of whose elements is an allowed identifier or
    an array of allowed identifiers, in any mixture.  An unknown
    identifier and an array nested one level deeper are refused; the
    values of [containsStrings] and of the flags play no part. *)
Theorem validated_iff config :
  ConfigValidator.validated config
  = (0 <? targetLoadCount (options config))%Z
    && forallb elementOk (linkedConditions (options config)).
Proof.
  unfold ConfigValidator.validated, ConfigValidator.errors,
    ConfigValidator.validatePositiveNonZeroInteger,
    ConfigValidator.validateLinkedConditions,
    ConfigValidator.validateStringArrays.
  rewrite linkedConditions_ok_flat.
  assert (Hc : forall arr, ConfigValidator.validateArrayContents arr = true).
  { assert (Hv : forall v, ConfigValidator.validateArrayContents_value v = true).
    { fix IHv 1. intros [s|l]; [reflexivity|]. simpl.
      induction l as [|x t IHl]; [reflexivity|].
      simpl. now rewrite IHv, IHl. }
    intros arr. unfold ConfigValidator.validateArrayContents.
    apply forallb_forall. intros v _. apply Hv. }
  rewrite Hc.
  destruct (Z.leb_spec (targetLoadCount (options config)) 0) as [Hle|Hgt];
    destruct (Z.ltb_spec 0 (targetLoadCount (options config))); try lia;
    destruct (forallb elementOk (linkedConditions (options config))); reflexivity.
Qed.

(** ** The decision *)

Lemma handleAddedNodes_total config :
  (forall node, exists d, shouldRemoveNode config node = Normal d) ->
  forall nodes w, snd (MainApp.handleAddedNodes config nodes w) = Normal tt.
Proof.
  intros Htotal. induction nodes as [|n rest IH]; intros w; [reflexivity|].
  simpl. destruct n as [node|b|]; simpl; try apply IH.
  unfold MainApp.removeEntry. destruct (Htotal node) as [d ->]. simpl. apply IH.
Qed.

(** X6.  On a validated configuration whose [linkedConditions] is one
    flat group or a sequence of groups and whose patterns are strings and
    groups of strings, no entry makes the decision throw, so every batch
    on an allowed page is handled to its end and finishes with
    [loadMoreOrReset]. *)
Theorem wellshaped_batch_never_throws config mutations w :
  ConfigValidator.validated config = true ->
  uniformLinked (linkedConditions (options config)) = true ->
  twoLevel (containsStrings (remove config)) = true ->
  (forall node, exists d, shouldRemoveNode config node = Normal d)
  /\ MainApp.observeMutations config true mutations w
     = (MainApp.loadMoreOrReset config
          (fst (MainApp.handleAddedNodes config (List.concat mutations) w)),
        Normal tt).
Proof.
  intros Hv Hu Ht.
  assert (Htotal : forall node, exists d, shouldRemoveNode config node = Normal d).
  { intros node. eexists. now apply shouldRemoveNode_refines. }
  split; [exact Htotal|].
  unfold MainApp.observeMutations.
  pose proof (handleAddedNodes_total config Htotal (List.concat mutations) w) as H.
  destruct (MainApp.handleAddedNodes config (List.concat mutations) w) as [w1 [[]|e]];
    [reflexivity|discriminate].
Qed.

(** X7.  Not reversed, on a validated configuration whose
    [linkedConditions] is one flat group or a sequence of groups and whose
    patterns are strings and groups of strings, the entry is removed
    exactly when some linked group has all its members true on the entry
    or some enabled condition outside every linked group is true on it;
    the decision never throws. *)
Theorem nonreversed_decision config node :
  ConfigValidator.validated config = true ->
  uniformLinked (linkedConditions (options config)) = true ->
  twoLevel (containsStrings (remove config)) = true ->
  reversedConditions (options config) = false ->
  let holds := conditionValue stringCondition_guarded config node false in
  shouldRemoveNode config node
  = Normal (existsb (fun group => forallb holds group)
                    (linkedGroups (linkedConditions (options config)))
            || existsb holds (participating config))
  /\ (forall name, In name conditionNames ->
        callCondition config node false (Str name) = Normal (holds name))
  /\ holds "uncommented" = shouldRemoveUncommented node
  /\ holds "unliked" = shouldRemoveUnliked node
  /\ holds "text" = shouldRemoveText node
  /\ holds "images" = shouldRemoveImage node
  /\ holds "videos" = shouldRemoveVideo node
  /\ holds "containsStrings"
     = (negb (patternSetEmpty config)
        && existsb (groupMatches config node) (patternGroups config)).
Proof.
  intros Hv Hu Ht Hr holds. split; [|split; [|repeat split]].
  - rewrite (shouldRemoveNode_refines _ _ Hv Hu Ht).
    unfold removes, groupMatched. now rewrite Hr.
  - intros name Hin. apply (callCondition_allowed _ _ Ht).
    apply existsb_exists. exists name. split; [exact Hin|apply String.eqb_refl].
Qed.

Lemma forallb_negb_existsb {A} (f g : A -> bool) (l : list A) :
  (forall x, In x l -> f x = negb (g x)) ->
  forallb f l = negb (existsb g l).
Proof.
  induction l as [|x t IH]; intros H; [reflexivity|].
  simpl. rewrite (H x (or_introl eq_refl)), IH.
  - now rewrite negb_orb.
  - intros y Hy. apply H. now right.
Qed.

(** X8.  "Only keep posts that would be removed by the conditions":
    without linked groups, and with a pattern set that is absent or not
    empty after flattening, the reversed configuration removes an entry
    exactly when at least one condition is enabled and the same
    configuration, not reversed, keeps the entry. *)
Theorem reversed_keeps_what_would_be_removed config node :
  ConfigValidator.validated config = true ->
  linkedConditions (options config) = [] ->
  twoLevel (containsStrings (remove config)) = true ->
  containsStrings (remove config) = [] \/ patternSetEmpty config = false ->
  exists d,
    shouldRemoveNode (setReversed false config) node = Normal d
    /\ shouldRemoveNode (setReversed true config) node
       = Normal (negb (isEmpty (participating config)) && negb d).
Proof.
  intros Hv Hl Ht Hp.
  assert (Hu : uniformLinked (linkedConditions (options config)) = true)
    by now rewrite Hl.
  exists (existsb (conditionValue stringCondition_guarded config node false)
                  (participating config)).
  split.
  - rewrite (shouldRemoveNode_refines (setReversed false config) node Hv Hu Ht).
    unfold removes. cbn [setReversed withOptions options reversedConditions
                          linkedConditions]. rewrite Hl. reflexivity.
  - rewrite (shouldRemoveNode_refines (setReversed true config) node Hv Hu Ht).
    unfold removes. cbn [setReversed withOptions options reversedConditions
                          linkedConditions]. rewrite Hl. cbn [linkedGroups existsb orb].
    change (participating (withOptions _ config)) with (participating config).
    f_equal. f_equal.
    apply forallb_negb_existsb. intros name Hin.
    unfold participating in Hin. apply filter_In in Hin. destruct Hin as [Hin Hq].
    apply andb_prop in Hq. destruct Hq as [He _].
    simpl in Hin.
    repeat (destruct Hin as [<-|Hin]; [reflexivity|]).
    destruct Hin as [<-|[]].
    unfold conditionValue. simpl.
    unfold stringCondition_guarded, stringCondition_stated.
    change (patternSetEmpty (setReversed true config)) with (patternSetEmpty config).
    destruct Hp as [Hp|Hp].
    + unfold conditionEnabled in He. simpl in He. rewrite Hp in He. discriminate.
    + rewrite Hp. reflexivity.
Qed.

Ltac same_but_flag config node name b :=
  unfold shouldRemoveNode;
  change (shouldRemoveByLinkedConditions (setRemoveFlag name b config) node)
    with (shouldRemoveByLinkedConditions config node);
  destruct (shouldRemoveByLinkedConditions config node) as [[|]|e];
  [reflexivity| |reflexivity];
  cbn [bind];
  change (reversedConditions (options (setRemoveFlag name b config)))
    with (reversedConditions (options config));
  unfold conditionsMap;
  change (shouldRemoveStrings (setRemoveFlag name b config))
    with (shouldRemoveStrings config);
  change (skipChecking (setRemoveFlag name b config)) with (skipChecking config);
  cbn [filter some mapM fst snd];
  unfold conditionEnabled, remove_get, setRemoveFlag, withRemove;
  cbn [remove uncommented unliked text images videos containsStrings
       String.eqb Ascii.eqb Bool.eqb].

(** X9.  "Linked conditions are always considered true": once a boolean
    condition is a member of a linked group, its own flag in [remove] no
    longer matters; switching it on or off never changes the decision
    for any entry. *)
Theorem linked_condition_flag_is_ignored config node name b :
  In name primitiveNames ->
  skipChecking config name = true ->
  shouldRemoveNode (setRemoveFlag name b config) node = shouldRemoveNode config node.
Proof.
  intros Hin Hskip. unfold primitiveNames in Hin. simpl in Hin.
  destruct Hin as [<-|[<-|[<-|[<-|[<-|[]]]]]];
    match goal with
    | |- shouldRemoveNode (setRemoveFlag ?n _ _) _ = _ => same_but_flag config node n b
    end;
    rewrite Hskip; rewrite ?andb_false_r; reflexivity.
Qed.

Lemma In_stringsOf s l : In (Str s) l -> In s (stringsOf l).
Proof.
  unfold stringsOf. intros H. apply in_flat_map. exists (Str s). split; [exact H|].
  now left.
Qed.

(** X10.  [shouldRemoveText] excludes entries with an image or a video,
    so a linked group that holds [text] together with [images] or
    [videos] matches no entry when the conditions are not reversed. *)
Theorem text_with_media_group_never_matches config node members :
  ConfigValidator.linkedConditions_ok members = true ->
  twoLevel (containsStrings (remove config)) = true ->
  In (Str "text") members ->
  In (Str "images") members \/ In (Str "videos") members ->
  checkConditions config node (Arr members) false = Normal false.
Proof.
  intros Hok Ht Htext Hmedia.
  rewrite (checkConditions_group config node Ht false members Hok).
  f_equal. unfold groupMatched.
  destruct (forallb _ (stringsOf members)) eqn:Hall; [|reflexivity].
  rewrite forallb_forall in Hall.
  pose proof (Hall "text" (In_stringsOf _ _ Htext)) as Ht'.
  unfold conditionValue in Ht'. simpl in Ht'.
  unfold shouldRemoveText in Ht'. apply andb_prop in Ht'. destruct Ht' as [_ Hno].
  apply negb_true_iff, orb_false_iff in Hno. destruct Hno as [Hi Hv].
  destruct Hmedia as [Hm|Hm]; pose proof (Hall _ (In_stringsOf _ _ Hm)) as Hm';
    unfold conditionValue in Hm'; simpl in Hm'; congruence.
Qed.

Lemma flat_In_Str s l : In (Str s) l -> In (Str s) (flat l).
Proof.
  induction l as [|v t IH]; intros H; [contradiction|].
  destruct H as [->|H].
  - now left.
  - destruct v as [s'|inner]; simpl.
    + right. now apply IH.
    + apply in_or_app. right. now apply IH.
Qed.

(** X11.  An empty string among the patterns occurs in every text: not
    reversed, the string condition is then true for every entry, and an
    enabled, unlinked string condition removes every entry; reversed, the
    string condition is false for every entry. *)
Theorem empty_string_pattern_matches_everything config node :
  twoLevel (containsStrings (remove config)) = true ->
  In (Str "") (containsStrings (remove config)) ->
  shouldRemoveStrings config node false = Normal true
  /\ shouldRemoveStrings config node true = Normal false.
Proof.
  intros Ht Hin.
  assert (Hne : patternSetEmpty config = false).
  { unfold patternSetEmpty. pose proof (flat_In_Str _ _ Hin) as Hf.
    destruct (flat (containsStrings (remove config))); [contradiction|reflexivity]. }
  assert (Hany : existsb (groupMatches config node) (patternGroups config) = true).
  { apply existsb_exists. exists [""]. split.
    - unfold patternGroups. apply in_map_iff. exists (Str ""). now split.
    - unfold groupMatches, occursIn. simpl.
      destruct (caseSensitive (options config));
        rewrite ?toLowerCase_empty, includes_empty; reflexivity. }
  rewrite !(shouldRemoveStrings_twoLevel _ _ _ Ht).
  unfold stringCondition_guarded, stringCondition_stated.
  now rewrite Hne, Hany.
Qed.

(** ** Extensionality of the loops *)

Lemma some_ext {A} (f g : A -> completion bool) (l : list A) :
  (forall x, f x = g x) -> some f l = some g l.
Proof.
  intros H. induction l as [|x t IH]; [reflexivity|]. simpl. now rewrite H, IH.
Qed.

Lemma every_ext {A} (f g : A -> completion bool) (l : list A) :
  (forall x, f x = g x) -> every f l = every g l.
Proof.
  intros H. induction l as [|x t IH]; [reflexivity|]. simpl. now rewrite H, IH.
Qed.

Lemma mapM_ext {A B} (f g : A -> completion B) (l : list A) :
  (forall x, In x l -> f x = g x) -> mapM f l = mapM g l.
Proof.
  induction l as [|x t IH]; intros H; [reflexivity|]. simpl.
  rewrite (H x (or_introl eq_refl)), IH; [reflexivity|].
  intros y Hy. apply H. now right.
Qed.

Lemma shouldRemoveStrings_same_lowercase config node t reversed :
  caseSensitive (options config) = false ->
  toLowerCase t = toLowerCase (textContent node) ->
  shouldRemoveStrings config (withText t node) reversed
  = shouldRemoveStrings config node reversed.
Proof.
  intros Hc Ht. unfold shouldRemoveStrings.
  destruct (List.length (flat (containsStrings (remove config))) =? 0)%nat;
    [reflexivity|].
  assert (Hcs : forall v, containsString config t v
                          = containsString config (textContent node) v).
  { intros v. unfold containsString. rewrite Hc. simpl. now rewrite Ht. }
  rewrite (some_ext (checkStrings config (withText t node)) (checkStrings config node));
    [reflexivity|].
  intros v. unfold checkStrings. cbn [withText textContent].
  destruct v as [s|l]; [apply Hcs|now apply every_ext].
Qed.

Lemma callCondition_same_lowercase config node t reversed condition :
  caseSensitive (options config) = false ->
  toLowerCase t = toLowerCase (textContent node) ->
  callCondition config (withText t node) reversed condition
  = callCondition config node reversed condition.
Proof.
  intros Hc Ht. destruct condition as [name|l]; [|reflexivity].
  unfold callCondition, conditionsMap_get, conditionsMap. cbn [find fst snd].
  repeat match goal with
         | |- context [String.eqb ?a name] =>
             destruct (String.eqb a name); [try reflexivity|]
         end.
  - now apply shouldRemoveStrings_same_lowercase.
  - reflexivity.
Qed.

(** X12.  With [caseSensitive] false the text of an entry counts only
    through its [toLowerCase()]: two entries that differ in nothing but
    their text, and whose texts are equal once lower-cased, get the same
    decision (or the same exception), whatever the configuration. *)
Theorem decision_ignores_case config node t :
  caseSensitive (options config) = false ->
  toLowerCase t = toLowerCase (textContent node) ->
  shouldRemoveNode config (withText t node) = shouldRemoveNode config node.
Proof.
  intros Hc Ht.
  assert (Hlinked : shouldRemoveByLinkedConditions config (withText t node)
                    = shouldRemoveByLinkedConditions config node).
  { unfold shouldRemoveByLinkedConditions.
    destruct (linkedConditions (options config)) as [|first rest]; [reflexivity|].
    apply some_ext. intros g. unfold checkConditions.
    destruct g as [s|l]; [reflexivity|].
    destruct (reversedConditions (options config));
      [apply some_ext|apply every_ext];
      intros c; now apply callCondition_same_lowercase. }
  assert (Hentry : forall reversed e,
             In e (conditionsMap config) ->
             snd e (withText t node) reversed = snd e node reversed).
  { intros reversed e He.
    rewrite <- !(conditionsMap_entry_call config _ reversed e He).
    now apply callCondition_same_lowercase. }
  unfold shouldRemoveNode. rewrite Hlinked.
  destruct (shouldRemoveByLinkedConditions config node) as [[|]|e]; try reflexivity.
  cbn [bind]. destruct (reversedConditions (options config)).
  - rewrite (mapM_ext (fun e => snd e (withText t node) true)
                      (fun e => snd e node true)); [reflexivity|].
    intros e He. apply filter_In in He. destruct He as [He _]. now apply Hentry.
  - unfold conditionsMap. cbn [some fst snd].
    now rewrite (shouldRemoveStrings_same_lowercase config node t false Hc Ht).
Qed.

Lemma some_returns {A} (f : A -> completion bool) (l : list A) :
  (forall x, exists b, f x = Normal b) -> exists b, some f l = Normal b.
Proof.
  intros H. induction l as [|x t IH]; [now exists false|].
  simpl. destruct (H x) as [b ->]. simpl.
  destruct b; [now exists true|exact IH].
Qed.

Lemma every_returns {A} (f : A -> completion bool) (l : list A) :
  (forall x, exists b, f x = Normal b) -> exists b, every f l = Normal b.
Proof.
  intros H. induction l as [|x t IH]; [now exists true|].
  simpl. destruct (H x) as [b ->]. simpl.
  destruct b; [exact IH|now exists false].
Qed.

(** X13.  The string condition throws only in one situation:
    [caseSensitive] is false and some pattern is nested deeper than a
    group of strings.  With [caseSensitive] true every nesting is
    evaluated (an inner array is compared as its elements joined by
    commas). *)
Theorem string_condition_throws_only_on_deep_patterns config node reversed e :
  shouldRemoveStrings config node reversed = Throw e ->
  caseSensitive (options config) = false
  /\ twoLevel (containsStrings (remove config)) = false.
Proof.
  intros H.
  destruct (caseSensitive (options config)) eqn:Hc.
  - exfalso.
    assert (Hcs : forall t v, exists b, containsString config t v = Normal b).
    { intros t v. unfold containsString. rewrite Hc. simpl. eauto. }
    assert (Hcheck : forall v, exists b, checkStrings config node v = Normal b).
    { intros [s|l]; simpl; [apply Hcs|apply every_returns, Hcs]. }
    unfold shouldRemoveStrings in H.
    destruct (List.length (flat (containsStrings (remove config))) =? 0)%nat;
      [discriminate|].
    destruct (some_returns _ (containsStrings (remove config)) Hcheck) as [b Hb].
    rewrite Hb in H. discriminate.
  - split; [reflexivity|].
    destruct (twoLevel (containsStrings (remove config))) eqn:Ht; [|reflexivity].
    rewrite (shouldRemoveStrings_twoLevel _ _ _ Ht) in H. discriminate.
Qed.

(** ** Batches *)

Lemma handleAddedNodes_app config a : forall b w,
  MainApp.handleAddedNodes config (a ++ b) w
  = match MainApp.handleAddedNodes config a w with
    | (w1, Normal _) => MainApp.handleAddedNodes config b w1
    | (w1, Throw e) => (w1, Throw e)
    end.
Proof.
  induction a as [|n rest IH]; intros b w; [reflexivity|].
  simpl. destruct (MainApp.handleAddedNode config n w) as [w1|e]; [apply IH|reflexivity].
Qed.

Lemma handleAddedNodes_count config nodes : forall w,
  snd (MainApp.handleAddedNodes config nodes w) = Normal tt ->
  currentLoadCount (fst (MainApp.handleAddedNodes config nodes w))
  = (currentLoadCount w
     + Z.of_nat (List.length (filter (decidesKeep config) (entriesOf nodes))))%Z.
Proof.
  induction nodes as [|n rest IH]; intros w H; [simpl; lia|].
  simpl in H. cbn [MainApp.handleAddedNodes fst].
  destruct n as [node|b|]; cbn [MainApp.handleAddedNode] in *;
    [|exact (IH _ H)|exact (IH _ H)].
  unfold MainApp.removeEntry in *. unfold entriesOf. cbn [flat_map app filter].
  fold (entriesOf rest). unfold decidesKeep at 1.
  destruct (shouldRemoveNode config node) as [[|]|e]; cbn [bind] in *;
    [| |discriminate]; rewrite (IH _ H); simpl; lia.
Qed.

(** X14.  A batch that is handled without exception splits its entries
    in two: those the decision removes are detached, in order, and each
    of the others raises [currentLoadCount] by one; no entry is both, and
    none is lost. *)
Theorem batch_partitions_entries config nodes : forall w,
  snd (MainApp.handleAddedNodes config nodes w) = Normal tt ->
  let w' := fst (MainApp.handleAddedNodes config nodes w) in
  removed w' = (removed w ++ filter (decidesRemove config) (entriesOf nodes))%list
  /\ currentLoadCount w'
     = (currentLoadCount w
        + Z.of_nat (List.length (filter (decidesKeep config) (entriesOf nodes))))%Z
  /\ (List.length (filter (decidesRemove config) (entriesOf nodes))
      + List.length (filter (decidesKeep config) (entriesOf nodes))
      = List.length (entriesOf nodes))%nat.
Proof.
  induction nodes as [|n rest IH]; intros w H.
  - simpl. rewrite app_nil_r. repeat split. lia.
  - simpl in H. cbn [MainApp.handleAddedNodes fst].
    destruct n as [node|b|]; cbn [MainApp.handleAddedNode] in *.
    + unfold MainApp.removeEntry in *. unfold entriesOf. cbn [flat_map app filter].
      fold (entriesOf rest).
      destruct (shouldRemoveNode config node) as [[|]|e] eqn:Hd; cbn [bind] in *;
        [| |discriminate].
      * assert (Hr : decidesRemove config node = true)
          by (unfold decidesRemove; now rewrite Hd).
        assert (Hk : decidesKeep config node = false)
          by (unfold decidesKeep; now rewrite Hd).
        rewrite Hr, Hk.
        destruct (IH _ H) as [H1 [H2 H3]]. cbv zeta in *.
        rewrite H1, H2. cbn [removed currentLoadCount set_removed].
        rewrite <- app_assoc. repeat split. simpl. lia.
      * assert (Hr : decidesRemove config node = false)
          by (unfold decidesRemove; now rewrite Hd).
        assert (Hk : decidesKeep config node = true)
          by (unfold decidesKeep; now rewrite Hd).
        rewrite Hr, Hk.
        destruct (IH _ H) as [H1 [H2 H3]]. cbv zeta in *.
        rewrite H1, H2. cbn [removed currentLoadCount set_currentLoadCount].
        repeat split; simpl; lia.
    + destruct (IH _ H) as [H1 [H2 H3]]. cbv zeta in *.
      rewrite H1, H2. repeat split. exact H3.
    + destruct (IH _ H) as [H1 [H2 H3]]. cbv zeta in *.
      rewrite H1, H2. repeat split. exact H3.
Qed.

(** X15.  An entry whose decision throws ends the batch on the spot: the
    nodes before it keep their effect, the entry itself and every node
    after it in the batch are neither removed nor counted, no control
    after it is registered, and [loadMoreOrReset] does not run, so the
    count and the flag stay as they were at the exception. *)
Theorem exception_aborts_batch config before node after w e :
  snd (MainApp.handleAddedNodes config before w) = Normal tt ->
  shouldRemoveNode config node = Throw e ->
  MainApp.observeMutations config true
    [(before ++ ActivityNode node :: after)%list] w
  = (fst (MainApp.handleAddedNodes config before w), Throw e).
Proof.
  intros Hb Hn. unfold MainApp.observeMutations.
  cbn [List.concat]. rewrite app_nil_r, handleAddedNodes_app.
  destruct (MainApp.handleAddedNodes config before w) as [w1 [[]|e1]];
    [|discriminate].
  cbn [MainApp.handleAddedNodes MainApp.handleAddedNode fst].
  unfold MainApp.removeEntry. rewrite Hn. reflexivity.
Qed.

(** X16.  "Minimum number of activities to show per click": while the
    flag is set, the entries that a batch keeps are added to the count
    carried over from the batches before; as long as the sum stays below
    [targetLoadCount] the script goes on (it invokes the last control
    of the batch, or the one still held) and keeps the sum, and as soon as
    the sum reaches the target it stops, invoking nothing, with the count
    back at 0 and the flag off. *)
Theorem batch_continues_until_target config mutations w :
  snd (MainApp.handleAddedNodes config (List.concat mutations) w) = Normal tt ->
  userPressed w = true ->
  let nodes := List.concat mutations in
  let kept := Z.of_nat (List.length (filter (decidesKeep config) (entriesOf nodes))) in
  let w' := fst (MainApp.observeMutations config true mutations w) in
  if (currentLoadCount w + kept <? targetLoadCount (options config))%Z
  then currentLoadCount w' = (currentLoadCount w + kept)%Z
       /\ userPressed w' = true
       /\ loadMore w' = None
       /\ clicks w'
          = (clicks w ++ match lastButtonFrom (loadMore w) nodes with
                         | Some b => [b]
                         | None => []
                         end)%list
  else currentLoadCount w' = 0%Z
       /\ userPressed w' = false
       /\ clicks w' = clicks w.
Proof.
  intros Hok Hu nodes kept w'.
  pose proof (handleAddedNodes_count config nodes w Hok) as Hcount.
  destruct (handleAddedNodes_controller config nodes w) as [Hu1 [Hc1 _]].
  pose proof (handleAddedNodes_loadMore config nodes w Hok) as Hl1.
  cbv zeta in Hcount, Hu1, Hc1. fold kept in Hcount.
  unfold w', MainApp.observeMutations. fold nodes.
  fold nodes in Hok.
  destruct (MainApp.handleAddedNodes config nodes w) as [w1 [[]|e]]; [|discriminate].
  cbn [fst snd] in *. unfold MainApp.loadMoreOrReset.
  rewrite Hcount, Hu1, Hu, andb_true_r.
  destruct (currentLoadCount w + kept <? targetLoadCount (options config))%Z.
  - destruct (loadMore w1) as [b|] eqn:Hl.
    + destruct (clickLoadMore_held _ _ Hl) as [G1 [G2 [_ [G4 G5]]]].
      rewrite G1, G2, G4, Hcount, Hc1, <- Hl1.
      repeat split. apply G5. now rewrite Hu1.
    + rewrite (clickLoadMore_none _ Hl), Hcount, Hu1, Hu, Hc1, <- Hl1, app_nil_r.
      repeat split. exact Hl.
  - destruct (resetState_fields w1) as [H1 [H2 [_ [H4 _]]]]. cbv zeta in *.
    rewrite H1, H2, H4, Hc1. repeat split.
Qed.

(** ** Timers and the cancel button *)

Lemma intervalTick_fields w :
  userPressed (UIHandler.intervalTick w) = userPressed w
  /\ if userPressed w
     then intervals (UIHandler.intervalTick w) = intervals w
          /\ scrolls (UIHandler.intervalTick w)
             = (scrolls w + if (intervals w =? 0)%nat then 0 else 1)%nat
     else intervals (UIHandler.intervalTick w) = (intervals w - 1)%nat
          /\ scrolls (UIHandler.intervalTick w) = scrolls w.
Proof.
  unfold UIHandler.intervalTick. destruct w as [c u ca l ls i sc k r]. simpl.
  destruct i as [|i]; destruct u; simpl; repeat split; lia.
Qed.

(** X17.  The scroll timers stop themselves.  While the flag is off,
    each firing removes one timer and dispatches nothing, so after as
    many firings as there are timers none is left; while the flag is on,
    no timer ever stops and each firing dispatches one scroll event. *)
Theorem timers_stop_only_when_idle n : forall w,
  let w' := iterate n UIHandler.intervalTick w in
  userPressed w' = userPressed w
  /\ if userPressed w
     then intervals w' = intervals w
          /\ scrolls w' = (scrolls w + if (intervals w =? 0)%nat then 0 else n)%nat
     else intervals w' = (intervals w - n)%nat /\ scrolls w' = scrolls w.
Proof.
  induction n as [|k IH]; intros w.
  - simpl. split; [reflexivity|].
    destruct (userPressed w); [destruct (intervals w =? 0)%nat|]; split; lia.
  - cbv zeta in *. cbn [iterate].
    destruct (IH (UIHandler.intervalTick w)) as [Hu Hrest].
    destruct (intervalTick_fields w) as [Gu Grest].
    rewrite Hu, Gu. split; [reflexivity|].
    rewrite Gu in Hrest.
    destruct (userPressed w).
    + destruct Hrest as [H1 H2]. destruct Grest as [G1 G2].
      rewrite H1, H2, G1, G2.
      destruct (intervals w =? 0)%nat; split; lia.
    + destruct Hrest as [H1 H2]. destruct Grest as [G1 G2].
      rewrite H1, H2, G1. split; lia.
Qed.

Lemma clickListener_intervals w :
  intervals (UIHandler.clickListener w) = S (intervals w).
Proof.
  unfold UIHandler.clickListener, UIHandler.showCancel, UIHandler.createCancel,
    UIHandler.simulateDomEvents.
  destruct w as [c u ca l ls i sc k r]. simpl. destruct ca; reflexivity.
Qed.

Lemma iterate_clickListener_intervals n : forall w,
  intervals (iterate n UIHandler.clickListener w) = (intervals w + n)%nat.
Proof.
  induction n as [|k IH]; intros w; simpl; [lia|].
  rewrite IH, clickListener_intervals. lia.
Qed.

Lemma clickLoadMore_intervals w b :
  loadMore w = Some b ->
  intervals (UIHandler.clickLoadMore w) = (intervals w + registered w b)%nat.
Proof.
  intros H. unfold UIHandler.clickLoadMore, UIHandler.dispatchClick. rewrite H.
  cbn [intervals set_loadMore]. rewrite iterate_clickListener_intervals. reflexivity.
Qed.

Lemma handleAddedNodes_intervals config nodes : forall w,
  intervals (fst (MainApp.handleAddedNodes config nodes w)) = intervals w.
Proof.
  induction nodes as [|n rest IH]; intros w; [reflexivity|].
  simpl. destruct (MainApp.handleAddedNode config n w) as [w1|e] eqn:Hn; [|reflexivity].
  rewrite IH. destruct n as [node|b|]; simpl in Hn.
  - unfold MainApp.removeEntry in Hn.
    destruct (shouldRemoveNode config node) as [[|]|e]; simpl in Hn;
      try discriminate; apply Normal_inj in Hn; now subst w1.
  - apply Normal_inj in Hn. now subst w1.
  - apply Normal_inj in Hn. now subst w1.
Qed.

Lemma resetState_intervals w :
  intervals (UIHandler.resetState (MainApp.resetState w)) = intervals w.
Proof.
  unfold UIHandler.resetState, MainApp.resetState, UIHandler.hideCancel.
  destruct w as [c u ca l ls i sc k r]. simpl. destruct ca; reflexivity.
Qed.

(** X18.  Timers pile up while the script goes on.  In every state the
    page can reach, invoking the held control starts as many new timers
    as the control has listeners, at least one; and no event takes a
    timer away except a firing while the flag is off.  A chain of
    automatic continuations therefore dispatches scroll events at a
    growing rate until the flag is cleared. *)
Theorem continuing_starts_timers config events :
  let w := MainApp.run config events initialWorld in
  (forall b, loadMore w = Some b ->
             (1 <= registered w b)%nat
             /\ intervals (UIHandler.clickLoadMore w)
                = (intervals w + registered w b)%nat)
  /\ (forall e, (intervals w <= intervals (MainApp.step config w e))%nat
                \/ (e = MainApp.Tick /\ userPressed w = false)).
Proof.
  intros w. split.
  - intros b Hb. split; [|now apply clickLoadMore_intervals].
    pose proof (singleUse_run config events initialWorld singleUse_initial b) as H.
    fold w in H. unfold held in H. rewrite Hb, Nat.eqb_refl in H.
    unfold button in *. lia.
  - intros e. destruct e as [allowedUrl mutations|b| |].
    + left. simpl. unfold MainApp.observeMutations.
      destruct allowedUrl; [|simpl; lia].
      pose proof (handleAddedNodes_intervals config (List.concat mutations) w) as Hi.
      destruct (MainApp.handleAddedNodes config (List.concat mutations) w)
        as [w1 [[]|e]]; simpl in *; [|lia].
      unfold MainApp.loadMoreOrReset.
      destruct ((currentLoadCount w1 <? targetLoadCount (options config))%Z
                && userPressed w1).
      * destruct (loadMore w1) as [b|] eqn:Hl.
        -- rewrite (clickLoadMore_intervals _ _ Hl). lia.
        -- rewrite (clickLoadMore_none _ Hl). lia.
      * rewrite resetState_intervals. lia.
    + left. simpl. unfold UIHandler.dispatchClick.
      rewrite iterate_clickListener_intervals. lia.
    + left. simpl. unfold UIHandler.cancelClick. destruct (cancel w); simpl; lia.
    + destruct (userPressed w) eqn:Hu; [left|right; now split].
      simpl. destruct (intervalTick_fields w) as [_ H]. rewrite Hu in H.
      destruct H as [H _]. lia.
Qed.

Lemma cancelOnlyWhileActive_clicked n : forall w,
  cancelOnlyWhileActive w ->
  cancelOnlyWhileActive (iterate n UIHandler.clickListener w).
Proof.
  induction n as [|k IH]; intros w H; [exact H|].
  simpl. apply IH. intros _.
  now destruct (clickListener_fields w) as [_ [_ [_ [_ Hu]]]].
Qed.

Lemma cancelOnlyWhileActive_same w w' :
  cancel w' = cancel w -> userPressed w' = userPressed w ->
  cancelOnlyWhileActive w -> cancelOnlyWhileActive w'.
Proof. unfold cancelOnlyWhileActive. intros -> ->. auto. Qed.

Lemma cancelOnlyWhileActive_step config w e :
  cancelOnlyWhileActive w -> cancelOnlyWhileActive (MainApp.step config w e).
Proof.
  intros H. destruct e as [allowedUrl mutations|b| |]; simpl.
  - unfold MainApp.observeMutations. destruct allowedUrl; [|exact H].
    destruct (handleAddedNodes_controller config (List.concat mutations) w)
      as [Hu [_ Hc]].
    destruct (MainApp.handleAddedNodes config (List.concat mutations) w)
      as [w1 [[]|e]]; simpl in *;
      [|exact (cancelOnlyWhileActive_same w w1 Hc Hu H)].
    pose proof (cancelOnlyWhileActive_same w w1 Hc Hu H) as H1.
    unfold MainApp.loadMoreOrReset.
    destruct ((currentLoadCount w1 <? targetLoadCount (options config))%Z
              && userPressed w1).
    + unfold UIHandler.clickLoadMore. destruct (loadMore w1) as [b|]; [|exact H1].
      unfold UIHandler.dispatchClick.
      apply (cancelOnlyWhileActive_same
               (iterate (count_occ Nat.eq_dec
                           (listeners (set_clicks (clicks w1 ++ [b]) w1)) b)
                        UIHandler.clickListener (set_clicks (clicks w1 ++ [b]) w1)));
        [reflexivity|reflexivity|].
      apply cancelOnlyWhileActive_clicked. exact H1.
    + intros Hc'. now destruct (resetState_fields w1) as [_ [_ [Hno _]]].
  - apply cancelOnlyWhileActive_clicked. exact H.
  - unfold UIHandler.cancelClick. destruct (cancel w); [|exact H].
    intros Hc. discriminate.
  - unfold UIHandler.intervalTick. destruct (intervals w); [exact H|].
    destruct (userPressed w) eqn:Hu; apply (cancelOnlyWhileActive_same w);
      try reflexivity; try exact H; simpl; auto.
Qed.

(** X19.  In every state the page can reach, the cancel button is on
    display only while the flag is set: a reset and a click on the button
    hide it together with clearing the flag, and only a click on a
    load-more control shows it again, setting the flag with it. *)
Theorem cancel_shown_only_while_active config events :
  cancelOnlyWhileActive (MainApp.run config events initialWorld).
Proof.
  assert (H : forall w, cancelOnlyWhileActive w ->
                        cancelOnlyWhileActive (MainApp.run config events w)).
  { unfold MainApp.run. induction events as [|e rest IH]; intros w Hw; [exact Hw|].
    simpl. apply IH. now apply cancelOnlyWhileActive_step. }
  apply H. intros Hc. reflexivity.
Qed.

(** ** Validator and conditions map *)

(** X20.  The list of identifiers that the validator allows and the keys
    of the conditions map are the same set: an identifier resolves to a
    predicate exactly when [validateLinkedConditions] allows it. *)
Theorem allowed_identifiers_are_the_map_keys config name :
  ConfigValidator.allowedConditions_includes name = true
  <-> exists p, conditionsMap_get config (Str name) = Some p.
Proof.
  split.
  - intros H. pattern name. apply allowed_cases; [exact H|..]; eexists; reflexivity.
  - intros [p Hp].
    unfold conditionsMap_get, conditionsMap in Hp. cbn [find fst snd] in Hp.
    unfold ConfigValidator.allowedConditions_includes,
      ConfigValidator.allowedConditions. cbn [existsb].
    repeat match type of Hp with
           | context [String.eqb ?a name] =>
               let E := fresh "E" in
               destruct (String.eqb a name) eqn:E;
               [apply String.eqb_eq in E; subst name; reflexivity|]
           end.
    discriminate.
Qed.

Lemma some_mono {A} (f g : A -> completion bool) (l : list A) :
  (forall x, In x l -> f x = Normal true -> g x = Normal true) ->
  (forall x, In x l -> f x = Normal false -> exists b, g x = Normal b) ->
  some f l = Normal true -> some g l = Normal true.
Proof.
  induction l as [|x t IH]; intros Ht Hf H; [discriminate|].
  simpl in *. destruct (f x) as [[|]|e] eqn:Hx; simpl in H; try discriminate.
  - rewrite (Ht x (or_introl eq_refl) Hx). reflexivity.
  - destruct (Hf x (or_introl eq_refl) Hx) as [b Hb]. rewrite Hb. simpl.
    destruct b; [reflexivity|].
    apply IH; [| |exact H]; intros y Hy; [apply Ht|apply Hf]; now right.
Qed.

Lemma conditionEnabled_setRemoveFlag config name n :
  conditionEnabled (setRemoveFlag name true config) n
  = conditionEnabled config n
    || (String.eqb n name && existsb (String.eqb n) primitiveNames).
Proof.
  unfold conditionEnabled, remove_get, setRemoveFlag, withRemove, primitiveNames.
  cbn [remove uncommented unliked text images videos containsStrings existsb].
  destruct (String.eqb_spec n name) as [->|Hne].
  - repeat match goal with
           | |- context [String.eqb name ?a] => destruct (String.eqb name a)
           end; cbn; rewrite ?orb_true_r, ?orb_false_r; reflexivity.
  - assert (Hflag : forall a, String.eqb n a = true -> String.eqb name a = false).
    { intros a Ha. apply String.eqb_eq in Ha. subst a.
      apply String.eqb_neq. congruence. }
    repeat match goal with
           | |- context [String.eqb n ?a] =>
               let E := fresh "E" in
               destruct (String.eqb n a) eqn:E;
               [rewrite ?(Hflag _ E); cbn; rewrite ?orb_false_r; reflexivity|]
           end.
    reflexivity.
Qed.

Lemma primitive_entry_returns config node reversed e :
  In e (conditionsMap config) ->
  existsb (String.eqb (fst e)) primitiveNames = true ->
  exists b, snd e node reversed = Normal b.
Proof.
  simpl. intros H.
  repeat (destruct H as [<-|H]; [intros _; eexists; reflexivity|]).
  destruct H as [<-|[]]. discriminate.
Qed.

(** X21.  Not reversed, switching a boolean condition on never rescues an
    entry: what was removed before is removed after. *)
Theorem enabling_a_condition_never_rescues config node name :
  reversedConditions (options config) = false ->
  shouldRemoveNode config node = Normal true ->
  shouldRemoveNode (setRemoveFlag name true config) node = Normal true.
Proof.
  intros Hr. unfold shouldRemoveNode.
  change (shouldRemoveByLinkedConditions (setRemoveFlag name true config) node)
    with (shouldRemoveByLinkedConditions config node).
  destruct (shouldRemoveByLinkedConditions config node) as [[|]|e];
    [reflexivity| |discriminate].
  cbn [bind].
  change (reversedConditions (options (setRemoveFlag name true config)))
    with (reversedConditions (options config)).
  rewrite Hr.
  change (conditionsMap (setRemoveFlag name true config)) with (conditionsMap config).
  change (skipChecking (setRemoveFlag name true config)) with (skipChecking config).
  apply some_mono; intros entry He; rewrite conditionEnabled_setRemoveFlag;
    set (new := String.eqb (fst entry) name
                && existsb (String.eqb (fst entry)) primitiveNames);
    destruct (conditionEnabled config (fst entry));
    destruct (negb (skipChecking config (fst entry)));
    cbn [orb andb]; rewrite ?andb_false_r; try discriminate; eauto.
  intros _. destruct new eqn:Hnew; [|simpl; eauto].
  apply andb_prop in Hnew. destruct Hnew as [_ Hp].
  exact (primitive_entry_returns config node false entry He Hp).
Qed.


End Text.

(** * The theorems at concrete inputs

    The examples are evaluated with the lower-casing of ASCII text. *)

Import UIHandler MainApp.

#[local] Existing Instance asciiLowerCasing.

(** C5, as stated, fails on an empty pattern set.  With no pattern and
    reversed, no group matches, yet the condition is false; with one
    empty group and not reversed, that group matches (it has no string
    that could be missing), yet the condition is false. *)
Lemma stated_string_condition_fails_on_empty_set :
  (twoLevel (containsStrings (remove (noPatternConfig true))) = true
   /\ stringCondition_stated (noPatternConfig true) videoEntry true = true
   /\ shouldRemoveStrings (noPatternConfig true) videoEntry true = Normal false)
  /\ (twoLevel (containsStrings (remove emptyGroupPatternConfig)) = true
      /\ conditionEnabled emptyGroupPatternConfig "containsStrings" = true
      /\ stringCondition_stated emptyGroupPatternConfig videoEntry false = true
      /\ shouldRemoveStrings emptyGroupPatternConfig videoEntry false = Normal false).
Proof. repeat split. Qed.

(** C2, as stated, fails when the string condition sits in a linked
    group and no pattern is configured: reversed, no pattern group
    matches, so the stated rule removes the entry, and the code keeps
    it. *)
Lemma stated_reversed_rule_fails_on_empty_set :
  ConfigValidator.validated emptyPatternLinkedConfig = true
  /\ reversedConditions (options emptyPatternLinkedConfig) = true
  /\ removes stringCondition_stated emptyPatternLinkedConfig videoEntry = true
  /\ shouldRemoveNode emptyPatternLinkedConfig videoEntry = Normal false.
Proof. repeat split. Qed.

(** C8, as stated, fails when the page delivers the same control again:
    the script keeps no record of the controls it has invoked, so a
    control that two batches deliver is held twice and invoked after each
    of them. *)
Lemma control_delivered_twice_is_invoked_twice :
  registered (run defaultConfig
                [Mutations true [[ButtonNode 7]]; Mutations true [[ButtonNode 7]]]
                initialWorld) 7 = 2
  /\ invoked (run defaultConfig
                [Mutations true [[ButtonNode 7]]; Mutations true [[ButtonNode 7]]]
                initialWorld) 7 = 2.
Proof. split; reflexivity. Qed.

(** Scenario C: the first group matches without regard to case. *)
Example scenario_C :
  shouldRemoveNode (giveawayConfig false) commentedEntry = Normal true.
Proof. reflexivity. Qed.

Lemma string_condition_multi_group_witness :
  shouldRemoveStrings (giveawayConfig false) commentedEntry false = Normal true.
Proof.
  exact (string_condition_multi_group (giveawayConfig false) commentedEntry false
           eq_refl).
Defined.

Lemma reversed_decision_witness :
  shouldRemoveNode (giveawayConfig true) videoEntry = Normal true.
Proof.
  exact (proj1 (reversed_decision (giveawayConfig true) videoEntry
                  eq_refl eq_refl eq_refl eq_refl)).
Defined.

Lemma loadMoreOrReset_continues_or_resets_witness :
  observeMutations defaultConfig true firstBatch continuingWorld
  = (loadMoreOrReset defaultConfig
       (fst (handleAddedNodes defaultConfig (List.concat firstBatch) continuingWorld)),
     Normal tt).
Proof.
  exact (proj2 (loadMoreOrReset_continues_or_resets defaultConfig continuingWorld)
           firstBatch eq_refl).
Defined.

Lemma inactive_never_continues_witness :
  (currentLoadCount idleWorld <? targetLoadCount (options defaultConfig))%Z = true
  /\ clicks (fst (observeMutations defaultConfig true firstBatch idleWorld)) = []
  /\ userPressed (fst (observeMutations defaultConfig true firstBatch idleWorld)) = false.
Proof.
  split; [reflexivity|].
  exact (proj1 (inactive_never_continues defaultConfig idleWorld eq_refl)
           true firstBatch).
Defined.

Lemma clickLoadMore_single_use_witness :
  clicks (clickLoadMore continuingWorld) = [7]
  /\ loadMore (clickLoadMore continuingWorld) = None.
Proof.
  exact (proj1 clickLoadMore_single_use continuingWorld 7 eq_refl).
Defined.

Lemma first_batch_auto_continues_witness :
  userPressed initialWorld = true
  /\ clicks (run defaultConfig [Mutations true firstBatch] initialWorld) = [7].
Proof.
  apply (first_batch_auto_continues defaultConfig firstBatch 7).
  - reflexivity.
  - vm_compute. reflexivity.
  - reflexivity.
Defined.

Lemma isAllowedUrl_contained_witness :
  Location.isAllowedUrl homeOnly
    ("https://example.org/?next=" ++ "https://anilist.co/home" ++ "#top") = true.
Proof.
  exact (isAllowedUrl_contained homeOnly "https://anilist.co/home"
           "https://example.org/?next=" "#top" eq_refl).
Defined.

Lemma nothing_runs_when_no_surface_enabled_witness :
  Location.isAllowedUrl (mkConfig noRemove (mkOptions 2 false false [])
                                  (mkRunOn false false false))
    "https://anilist.co/home" = false
  /\ Location.observeMutations
       (mkConfig noRemove (mkOptions 2 false false []) (mkRunOn false false false))
       "https://anilist.co/home" firstBatch initialWorld
     = (initialWorld, Normal tt).
Proof.
  exact (nothing_runs_when_no_surface_enabled
           (mkConfig noRemove (mkOptions 2 false false []) (mkRunOn false false false))
           "https://anilist.co/home" firstBatch initialWorld
           eq_refl eq_refl eq_refl).
Defined.

Lemma isAllowedUrl_families_witness :
  Location.isAllowedUrl socialOnly
    ("https://anilist.co/" ++ "user/SeyTi01" ++ "/social" ++ "") = true.
Proof.
  destruct (isAllowedUrl_families socialOnly "user/SeyTi01" "" eq_refl)
    as [_ [Hsocial _]].
  exact (Hsocial eq_refl).
Defined.

Lemma isAllowedUrl_only_anilist_witness :
  Location.isAllowedUrl defaultConfig "https://example.org/home" = false
  /\ Location.observeMutations defaultConfig "https://example.org/home"
       firstBatch initialWorld
     = (initialWorld, Normal tt).
Proof.
  exact (isAllowedUrl_only_anilist defaultConfig "https://example.org/home"
           firstBatch initialWorld eq_refl).
Defined.

Lemma wellshaped_batch_never_throws_witness :
  (forall node, exists d, shouldRemoveNode imageAndVideoConfig node = Normal d)
  /\ MainApp.observeMutations imageAndVideoConfig true firstBatch initialWorld
     = (MainApp.loadMoreOrReset imageAndVideoConfig
          (fst (MainApp.handleAddedNodes imageAndVideoConfig
                  (List.concat firstBatch) initialWorld)),
        Normal tt).
Proof.
  exact (wellshaped_batch_never_throws imageAndVideoConfig firstBatch initialWorld
           eq_refl eq_refl eq_refl).
Defined.

Lemma nonreversed_decision_witness :
  shouldRemoveNode imageAndVideoConfig imageEntry = Normal false.
Proof.
  exact (proj1 (nonreversed_decision imageAndVideoConfig imageEntry
                  eq_refl eq_refl eq_refl eq_refl)).
Defined.

Lemma reversed_keeps_what_would_be_removed_witness :
  exists d,
    shouldRemoveNode (setReversed false defaultConfig) uncommentedEntry = Normal d
    /\ shouldRemoveNode (setReversed true defaultConfig) uncommentedEntry
       = Normal (negb (isEmpty (participating defaultConfig)) && negb d).
Proof.
  exact (reversed_keeps_what_would_be_removed defaultConfig uncommentedEntry
           eq_refl eq_refl eq_refl (or_introl eq_refl)).
Defined.

Lemma linked_condition_flag_is_ignored_witness :
  shouldRemoveNode (setRemoveFlag "images" true imageAndVideoConfig) imageEntry
  = shouldRemoveNode imageAndVideoConfig imageEntry.
Proof.
  apply (linked_condition_flag_is_ignored imageAndVideoConfig imageEntry "images" true).
  - simpl. auto.
  - reflexivity.
Defined.

Lemma text_with_media_group_never_matches_witness :
  checkConditions defaultConfig imageEntry (Arr [Str "images"; Str "text"]) false
  = Normal false.
Proof.
  apply (text_with_media_group_never_matches defaultConfig imageEntry
           [Str "images"; Str "text"]).
  - reflexivity.
  - reflexivity.
  - simpl. auto.
  - left. simpl. auto.
Defined.

Lemma empty_string_pattern_matches_everything_witness :
  shouldRemoveStrings
    (withRemove (mkRemove false false false false false [Str ""]) defaultConfig)
    commentedEntry false = Normal true
  /\ shouldRemoveStrings
       (withRemove (mkRemove false false false false false [Str ""]) defaultConfig)
       commentedEntry true = Normal false.
Proof.
  apply (empty_string_pattern_matches_everything
           (withRemove (mkRemove false false false false false [Str ""]) defaultConfig)
           commentedEntry).
  - reflexivity.
  - simpl. auto.
Defined.

Lemma decision_ignores_case_witness :
  shouldRemoveNode (giveawayConfig false) (withText "GIVEAWAY closed NOW" commentedEntry)
  = shouldRemoveNode (giveawayConfig false) commentedEntry.
Proof.
  exact (decision_ignores_case (giveawayConfig false) commentedEntry
           "GIVEAWAY closed NOW" eq_refl eq_refl).
Defined.

Lemma string_condition_throws_only_on_deep_patterns_witness :
  caseSensitive (options deepPatternConfig) = false
  /\ twoLevel (containsStrings (remove deepPatternConfig)) = false.
Proof.
  exact (string_condition_throws_only_on_deep_patterns deepPatternConfig videoEntry
           false TypeError eq_refl).
Defined.

Lemma batch_partitions_entries_witness :
  let w' := fst (MainApp.handleAddedNodes defaultConfig (List.concat scenarioBatch)
                   initialWorld) in
  removed w' = [uncommentedEntry; uncommentedEntry]
  /\ currentLoadCount w' = 1%Z.
Proof.
  destruct (batch_partitions_entries defaultConfig (List.concat scenarioBatch)
              initialWorld eq_refl) as [H1 [H2 _]].
  split; [exact H1|exact H2].
Defined.

Lemma exception_aborts_batch_witness :
  MainApp.observeMutations mixedConfig true
    [([ActivityNode commentedEntry] ++ ActivityNode videoEntry
        :: [ActivityNode commentedEntry; ButtonNode 7])%list] initialWorld
  = (fst (MainApp.handleAddedNodes mixedConfig [ActivityNode commentedEntry]
            initialWorld),
     Throw TypeError).
Proof.
  exact (exception_aborts_batch mixedConfig [ActivityNode commentedEntry] videoEntry
           [ActivityNode commentedEntry; ButtonNode 7] initialWorld TypeError
           eq_refl eq_refl).
Defined.

Lemma batch_continues_until_target_witness :
  let w' := fst (MainApp.observeMutations defaultConfig true firstBatch continuingWorld) in
  currentLoadCount w' = 0%Z /\ userPressed w' = false /\ clicks w' = [].
Proof.
  exact (batch_continues_until_target defaultConfig firstBatch continuingWorld
           eq_refl eq_refl).
Defined.

Lemma continuing_starts_timers_witness :
  let w := MainApp.run defaultConfig
             [MainApp.Mutations true
                [[ActivityNode commentedEntry; ActivityNode commentedEntry;
                  ButtonNode 7]]] initialWorld in
  (1 <= registered w 7)%nat
  /\ intervals (UIHandler.clickLoadMore w) = (intervals w + registered w 7)%nat.
Proof.
  exact (proj1 (continuing_starts_timers defaultConfig
                  [MainApp.Mutations true
                     [[ActivityNode commentedEntry; ActivityNode commentedEntry;
                       ButtonNode 7]]]) 7 eq_refl).
Defined.

Lemma enabling_a_condition_never_rescues_witness :
  shouldRemoveNode (setRemoveFlag "images" true defaultConfig) uncommentedEntry
  = Normal true.
Proof.
  apply (enabling_a_condition_never_rescues defaultConfig uncommentedEntry "images").
  - reflexivity.
  - reflexivity.
Defined.

Lemma allowed_identifiers_are_the_map_keys_witness :
  exists p, conditionsMap_get defaultConfig (Str "containsStrings") = Some p.
Proof.
  exact (proj1 (allowed_identifiers_are_the_map_keys defaultConfig "containsStrings")
           eq_refl).
Defined.
